(** * graphql-middleware-jaeger: the tracing middleware and its hook dispatcher

    A shallow embedding of [src/index.ts].  The file has two functions:
    [runHook], which dispatches the callbacks registered under a lifecycle
    name, and [graphqlJaegerMiddleware], which wraps one resolver call in a
    root span and the three dispatches [preResolve], [postResolve] and
    [resolveError].

    What is modelled, and how:
    - the caller-supplied [context] object is one shared mutable object; it
      is the store that is threaded through every callback ([Ctx]);
    - a callback (hook or resolver) is a function of its arguments and the
      current store that either completes normally or throws, and leaves a
      new store; a hook reads the record it is given and may change the
      context; callbacks complete (a callback whose promise never settles
      is outside the model);
    - [await] sequences; an [async] body that throws rejects its own
      promise, which the middleware drops: only [pResolve] and [pReject]
      settle the promise handed to the caller;
    - the tracer is external: [tracer.startRootSpan(options, body)] calls
      [body] once, synchronously, with the span it created, or with [null]
      when it creates none (a trace that is not sampled, a tracer that is
      not active).  On a span, [span.start()] and [span.end()] do not throw
      and appear as events of the trace; on [null] each of them raises a
      TypeError. *)

From stdpp Require Import base option list gmap strings.

(** ** Data *)

(** [TraceOptions] of the tracer library; the middleware only supplies
    [name]. *)
Record TraceOptions := { name : string }.

Record IMiddlewareOptions := { rootSpanOptions : option TraceOptions }.

Definition defaultOptions : IMiddlewareOptions :=
  {| rootSpanOptions := Some {| name := "graphqlRequest"%string |} |}.

(** JavaScript [a || b] on a value that is either an object or absent. *)
Definition jsOr {A : Type} (a b : option A) : option A :=
  match a with
  | Some _ => a
  | None => b
  end.

Section Model.
Context {Tracer Span Parent Args Info Data Err UserCtx : Type}.

(** [context.tracing]: the object created empty and then filled in. *)
Record Tracing := { tracer : option Tracer; rootSpan : option Span }.

(** The per-request context: the [tracing] property the middleware owns,
    next to whatever the application keeps there. *)
Record Ctx := { tracing : option Tracing; user : UserCtx }.

(** [IHookFnContext.data]. *)
Record HookData := {
  resolvedData : option Data;
  args : Args;
  parent : Parent;
  info : Info
}.

(** [IHookFnContext].  Its [context] property is a reference to the shared
    context object, which is the store of the model, so the record keeps
    the remaining properties. *)
Record IHookFnContext := {
  hookRootSpan : option Span;
  data : HookData;
  err : option Err
}.

(** How a call ends: with a value, or by throwing. *)
Inductive Completion (A : Type) : Type :=
| Normal (a : A)
| Throw (e : Err).
Global Arguments Normal {A} a.
Global Arguments Throw {A} e.

Definition IMiddlewareHookFn : Type :=
  IHookFnContext -> Ctx -> Completion unit * Ctx.

Definition Resolver : Type :=
  Parent -> Args -> Ctx -> Info -> Completion Data * Ctx.

(** The promise returned to the caller. *)
Inductive PromiseState : Type :=
| Pending
| Fulfilled (d : Data)
| Rejected (e : Err).

(** What an observer of one invocation sees, in order. *)
Inductive Event : Type :=
| EStartRootSpan (o : option TraceOptions)
| EHookBegin (hookName : string) (i : nat) (hc : IHookFnContext) (c : Ctx)
| EHookEnd (hookName : string) (i : nat) (r : Completion unit)
| ESpanStart
| ESpanEnd
| EResolveBegin (p : Parent) (a : Args) (c : Ctx) (i : Info)
| EResolveEnd (r : Completion Data)
| EPResolve (d : Data)
| EPReject (e : Err).

Record Store := { context : Ctx; promise : PromiseState }.

Definition setContext (c : Ctx) (s : Store) : Store :=
  {| context := c; promise := promise s |}.

(** A promise settles once; later calls of its functions do nothing. *)
Definition settle (p : PromiseState) (s : Store) : Store :=
  match promise s with
  | Pending => {| context := context s; promise := p |}
  | _ => s
  end.

(** ** The monad of the async body: store, exceptions, trace *)

Definition M (A : Type) : Type := Store -> Completion A * Store * list Event.

Definition ret {A : Type} (a : A) : M A := fun s => (Normal a, s, []).

Definition bind {A B : Type} (m : M A) (k : A -> M B) : M B := fun s =>
  match m s with
  | (Normal a, s1, t1) =>
      match k a s1 with
      | (r, s2, t2) => (r, s2, t1 ++ t2)
      end
  | (Throw e, s1, t1) => (Throw e, s1, t1)
  end.

(** [try { body } catch (err) { handler }]. *)
Definition tryCatch {A : Type} (body : M A) (handler : Err -> M A) : M A :=
  fun s =>
    match body s with
    | (Normal a, s1, t1) => (Normal a, s1, t1)
    | (Throw e, s1, t1) =>
        match handler e s1 with
        | (r, s2, t2) => (r, s2, t1 ++ t2)
        end
    end.

Definition emit (e : Event) : M unit := fun s => (Normal tt, s, [e]).

Definition pResolve (d : Data) : M unit := fun s =>
  (Normal tt, settle (Fulfilled d) s, [EPResolve d]).

Definition pReject (e : Err) : M unit := fun s =>
  (Normal tt, settle (Rejected e) s, [EPReject e]).

(** [await hookFn.apply(null, [hookFnContext])]: callback number [i] of
    the list registered under [hookName]. *)
Definition callHook (hookName : string) (i : nat) (hookFn : IMiddlewareHookFn)
    (hookFnContext : IHookFnContext) : M unit := fun s =>
  match hookFn hookFnContext (context s) with
  | (r, c) =>
      (r, setContext c s,
       [EHookBegin hookName i hookFnContext (context s); EHookEnd hookName i r])
  end.

(** [await resolve(parent, args, context, info)]. *)
Definition callResolver (resolve : Resolver) (p : Parent) (a : Args) (i : Info)
    : M Data := fun s =>
  match resolve p a (context s) i with
  | (r, c) =>
      (r, setContext c s, [EResolveBegin p a (context s) i; EResolveEnd r])
  end.

(** ** runHook *)

(** [for (const hookFn of hook) { await hookFn.apply(...) }] (lines 62 to
    64), counting the callbacks from [i]. *)
Fixpoint runHookFns (hookName : string) (hookFnContext : IHookFnContext)
    (i : nat) (hook : list IMiddlewareHookFn) : M unit :=
  match hook with
  | [] => ret tt
  | hookFn :: rest =>
      bind (callHook hookName i hookFn hookFnContext)
           (fun _ => runHookFns hookName hookFnContext (S i) rest)
  end.

(** [hooks[name]] is a list of callbacks or absent; an absent one is not an
    array and the dispatch returns at once (lines 56 to 60). *)
Definition runHook (hooks : gmap string (list IMiddlewareHookFn))
    (hookName : string) (hookFnContext : IHookFnContext) : M unit :=
  match hooks !! hookName with
  | None => ret tt
  | Some hook => runHookFns hookName hookFnContext 0 hook
  end.

(** ** graphqlJaegerMiddleware *)

(** [context.tracing = {}; context.tracing.tracer = tracer]. *)
Definition attachTracer (tr : Tracer) (c : Ctx) : Ctx :=
  {| tracing := Some {| tracer := Some tr; rootSpan := None |};
     user := user c |}.

(** [context.tracing.rootSpan = span], where [span] is what the tracer
    handed to the callback: a span, or [null] ([None]).  [typeError prop] is
    the TypeError JavaScript raises when property [prop] of [null] or
    [undefined] is used; assigning [rootSpan] on an absent [context.tracing]
    raises it. *)
Definition attachRootSpan (typeError : string -> Err) (span : option Span)
    : M unit := fun s =>
  match tracing (context s) with
  | Some t =>
      (Normal tt,
       setContext {| tracing := Some {| tracer := tracer t;
                                        rootSpan := span |};
                     user := user (context s) |} s,
       [])
  | None => (Throw (typeError "rootSpan"%string), s, [])
  end.

(** [span.start()] (line 106): on [null] the call raises a TypeError. *)
Definition spanStart (typeError : string -> Err) (span : option Span)
    : M unit := fun s =>
  match span with
  | Some _ => (Normal tt, s, [ESpanStart])
  | None => (Throw (typeError "start"%string), s, [])
  end.

(** [span.end()] (lines 116 and 127): on [null] the call raises a
    TypeError. *)
Definition spanEnd (typeError : string -> Err) (span : option Span)
    : M unit := fun s =>
  match span with
  | Some _ => (Normal tt, s, [ESpanEnd])
  | None => (Throw (typeError "end"%string), s, [])
  end.

Definition hookRecord (span : option Span) (d : option Data) (p : Parent)
    (a : Args) (i : Info) (e : option Err) : IHookFnContext :=
  {| hookRootSpan := span;
     data := {| resolvedData := d; args := a; parent := p; info := i |};
     err := e |}.

(** The [async span => { ... }] callback handed to [startRootSpan]
    (lines 93 to 130): the preResolve dispatch comes before the [try], the
    postResolve dispatch inside it, the resolveError dispatch inside the
    [catch]. *)
Definition spanBody (typeError : string -> Err)
    (hooks : gmap string (list IMiddlewareHookFn)) (resolve : Resolver)
    (p : Parent) (a : Args) (i : Info) (span : option Span) : M unit :=
  bind (attachRootSpan typeError span) (fun _ =>
  bind (runHook hooks "preResolve"%string
          (hookRecord span None p a i None)) (fun _ =>
  tryCatch
    (bind (spanStart typeError span) (fun _ =>
     bind (callResolver resolve p a i) (fun d =>
     bind (runHook hooks "postResolve"%string
             (hookRecord span (Some d) p a i None)) (fun _ =>
     bind (spanEnd typeError span) (fun _ =>
     pResolve d)))))
    (fun e =>
     bind (runHook hooks "resolveError"%string
             (hookRecord span None p a i (Some e))) (fun _ =>
     bind (spanEnd typeError span) (fun _ =>
     pReject e))))).

(** One invocation of the function the factory returns (lines 85 to 133).
    [tr] is the tracer made at construction, [span] what [tr.startRootSpan]
    hands to its callback for this call: a span, or [null].  The result is
    the final store (the context as the call leaves it, and the state of the
    promise the caller holds) and the trace.  The completion of the async
    body itself is dropped, as in the source. *)
Definition graphqlJaegerMiddleware (typeError : string -> Err) (tr : Tracer)
    (middlewareOptions : IMiddlewareOptions)
    (hooks : gmap string (list IMiddlewareHookFn)) (span : option Span)
    (resolve : Resolver) (p : Parent) (a : Args) (c : Ctx) (i : Info)
    : Store * list Event :=
  let opts := jsOr (rootSpanOptions middlewareOptions)
                   (rootSpanOptions defaultOptions) in
  match spanBody typeError hooks resolve p a i span
          {| context := attachTracer tr c; promise := Pending |} with
  | (_, s, t) => (s, EStartRootSpan opts :: t)
  end.

(** ** Observations on a trace *)

Definition isSpanStart (e : Event) : bool :=
  match e with ESpanStart => true | _ => false end.

Definition isSpanEnd (e : Event) : bool :=
  match e with ESpanEnd => true | _ => false end.

Definition isResolveBegin (e : Event) : bool :=
  match e with EResolveBegin _ _ _ _ => true | _ => false end.

Definition isPResolve (e : Event) : bool :=
  match e with EPResolve _ => true | _ => false end.

(** The begin and end events of the callbacks. *)
Definition isHookEvent (e : Event) : bool :=
  match e with
  | EHookBegin _ _ _ _ | EHookEnd _ _ _ => true
  | _ => false
  end.

(** The events of the callbacks registered under [hookName]. *)
Definition isHookEventOf (hookName : string) (e : Event) : bool :=
  match e with
  | EHookBegin n _ _ _ | EHookEnd n _ _ => String.eqb n hookName
  | _ => false
  end.

(** The end of a callback that threw. *)
Definition isHookFailure (e : Event) : bool :=
  match e with
  | EHookEnd _ _ (Throw _) => true
  | _ => false
  end.

Definition countEv (p : Event -> bool) (t : list Event) : nat :=
  length (List.filter p t).

(** A callback that starts with event [e] finds handle [h] under
    [context.tracing]; events that start no callback ask nothing. *)
Definition seesHandle (h : Tracing) (e : Event) : Prop :=
  match e with
  | EHookBegin _ _ _ c => tracing c = Some h
  | EResolveBegin _ _ c _ => tracing c = Some h
  | _ => True
  end.

(** The record of a hook call carries [span], what the tracer handed out,
    as its [rootSpan]. *)
Definition carriesSpan (span : option Span) (e : Event) : Prop :=
  match e with
  | EHookBegin _ _ hc _ => hookRootSpan hc = span
  | _ => True
  end.

(** Callbacks that leave [context.tracing] as they found it. *)
Definition hookKeepsTracing (hookFn : IMiddlewareHookFn) : Prop :=
  forall hc c, tracing (hookFn hc c).2 = tracing c.

Definition resolverKeepsTracing (resolve : Resolver) : Prop :=
  forall p a c i, tracing (resolve p a c i).2 = tracing c.

Definition spanStarts (t : list Event) : nat := countEv isSpanStart t.
Definition spanEnds (t : list Event) : nat := countEv isSpanEnd t.

(** The completions of the resolver calls of a trace. *)
Fixpoint resolverResults (t : list Event) : list (Completion Data) :=
  match t with
  | [] => []
  | EResolveEnd r :: rest => r :: resolverResults rest
  | _ :: rest => resolverResults rest
  end.

(** The promise an async call that ends with [r] gives. *)
Definition promiseOf (r : Completion Data) : PromiseState :=
  match r with
  | Normal d => Fulfilled d
  | Throw e => Rejected e
  end.

(** The callbacks registered under a lifecycle name. *)
Definition registered (hooks : gmap string (list IMiddlewareHookFn))
    (hookName : string) : list IMiddlewareHookFn :=
  match hooks !! hookName with
  | Some hook => hook
  | None => []
  end.

(** One call of a callback: the context it found and how it ended. *)
Definition HookCall : Type := Ctx * Completion unit.

Definition completed (call : HookCall) : Prop := call.2 = Normal tt.

(** The trace of calls made one after the other, the first one being
    callback number [i]: each call ends before the next begins. *)
Fixpoint hookTrace (hookName : string) (hookFnContext : IHookFnContext)
    (i : nat) (calls : list HookCall) : list Event :=
  match calls with
  | [] => []
  | (c, r) :: rest =>
      EHookBegin hookName i hookFnContext c
        :: EHookEnd hookName i r
        :: hookTrace hookName hookFnContext (S i) rest
  end.

(** [calls] are calls of the first callbacks of [hook], in the order of
    the list: the first call finds context [c], each later one the context
    its predecessor left, and the last one leaves [final]. *)
Fixpoint callsOf (hookFnContext : IHookFnContext)
    (hook : list IMiddlewareHookFn) (c : Ctx) (calls : list HookCall)
    (final : Ctx) {struct calls} : Prop :=
  match calls, hook with
  | [], _ => final = c
  | (c0, r) :: calls', hookFn :: hook' =>
      c0 = c /\
      exists c', hookFn hookFnContext c = (r, c') /\
                 callsOf hookFnContext hook' c' calls' final
  | _ :: _, [] => False
  end.

(** How a dispatch that made [calls] ended: normally after every
    registered callback completed, or with the error of the last call
    made. *)
Definition dispatchOutcome (hook : list IMiddlewareHookFn)
    (calls : list HookCall) (r : Completion unit) : Prop :=
  match r with
  | Normal _ => length calls = length hook /\ Forall completed calls
  | Throw e =>
      exists pre c, calls = pre ++ [(c, Throw e)] /\ Forall completed pre
  end.

(** What the catch block adds to the trace after a resolveError dispatch
    that ended with [r], and where it leaves the promise, for error [e]. *)
Definition handlerTail (e : Err) (r : Completion unit) : list Event :=
  match r with
  | Normal _ => [ESpanEnd; EPReject e]
  | Throw _ => []
  end.

Definition handlerPromise (e : Err) (r : Completion unit) : PromiseState :=
  match r with
  | Normal _ => Rejected e
  | Throw _ => Pending
  end.

(** ** The paths of one invocation *)

Section Paths.
Variable typeError : string -> Err.
Variable tr : Tracer.
Variable middlewareOptions : IMiddlewareOptions.
Variable hooks : gmap string (list IMiddlewareHookFn).
Variable span : option Span.
Variable resolve : Resolver.
Variable p : Parent.
Variable a : Args.
Variable i : Info.

(** The handle under [context.tracing] once the body has stored what the
    tracer handed out. *)
Definition tracingHandle : Tracing :=
  {| tracer := Some tr; rootSpan := span |}.

Definition tracedContext (c : Ctx) : Ctx :=
  {| tracing := Some tracingHandle; user := user c |}.

(** A dispatch of [hookName] that starts in context [c], makes [calls],
    ends with [r] and leaves context [final]. *)
Definition dispatched (hookName : string) (hookFnContext : IHookFnContext)
    (c : Ctx) (calls : list HookCall) (r : Completion unit) (final : Ctx)
    : Prop :=
  callsOf hookFnContext (registered hooks hookName) c calls final /\
  dispatchOutcome (registered hooks hookName) calls r.

Definition preRecord : IHookFnContext := hookRecord span None p a i None.
Definition postRecord (d : Data) : IHookFnContext :=
  hookRecord span (Some d) p a i None.
Definition errorRecord (e : Err) : IHookFnContext :=
  hookRecord span None p a i (Some e).

(** The [catch] block entered with error [e] in context [c], when the
    tracer handed out a span: the final store and the events it adds. *)
Inductive ErrorPath (e : Err) (c : Ctx) : Store * list Event -> Prop :=
| ErrorHandled calls final :
    dispatched "resolveError" (errorRecord e) c calls (Normal tt) final ->
    ErrorPath e c
      ({| context := final; promise := Rejected e |},
       hookTrace "resolveError" (errorRecord e) 0 calls
         ++ [ESpanEnd; EPReject e])
| ErrorHookFails calls g final :
    dispatched "resolveError" (errorRecord e) c calls (Throw g) final ->
    ErrorPath e c
      ({| context := final; promise := Pending |},
       hookTrace "resolveError" (errorRecord e) 0 calls).

(** Every way one invocation on context [c] can go.  When the tracer hands
    out [null], [span.start()] raises its TypeError inside the [try], the
    resolveError callbacks are dispatched with it, and [span.end()] raises
    another one inside the [catch]: the last path. *)
Inductive Path (c : Ctx) : Store * list Event -> Prop :=
| PreHookFails calls g c1 :
    dispatched "preResolve" preRecord (tracedContext c) calls (Throw g) c1 ->
    Path c
      ({| context := c1; promise := Pending |},
       EStartRootSpan (jsOr (rootSpanOptions middlewareOptions)
                            (rootSpanOptions defaultOptions))
         :: hookTrace "preResolve" preRecord 0 calls)
| Resolved sp calls c1 d c2 calls' c3 :
    span = Some sp ->
    dispatched "preResolve" preRecord (tracedContext c) calls (Normal tt) c1 ->
    resolve p a c1 i = (Normal d, c2) ->
    dispatched "postResolve" (postRecord d) c2 calls' (Normal tt) c3 ->
    Path c
      ({| context := c3; promise := Fulfilled d |},
       EStartRootSpan (jsOr (rootSpanOptions middlewareOptions)
                            (rootSpanOptions defaultOptions))
         :: hookTrace "preResolve" preRecord 0 calls
         ++ [ESpanStart; EResolveBegin p a c1 i; EResolveEnd (Normal d)]
         ++ hookTrace "postResolve" (postRecord d) 0 calls'
         ++ [ESpanEnd; EPResolve d])
| PostHookFails sp calls c1 d c2 calls' h c3 s t :
    span = Some sp ->
    dispatched "preResolve" preRecord (tracedContext c) calls (Normal tt) c1 ->
    resolve p a c1 i = (Normal d, c2) ->
    dispatched "postResolve" (postRecord d) c2 calls' (Throw h) c3 ->
    ErrorPath h c3 (s, t) ->
    Path c
      (s,
       EStartRootSpan (jsOr (rootSpanOptions middlewareOptions)
                            (rootSpanOptions defaultOptions))
         :: hookTrace "preResolve" preRecord 0 calls
         ++ [ESpanStart; EResolveBegin p a c1 i; EResolveEnd (Normal d)]
         ++ hookTrace "postResolve" (postRecord d) 0 calls'
         ++ t)
| ResolverFails sp calls c1 e c2 s t :
    span = Some sp ->
    dispatched "preResolve" preRecord (tracedContext c) calls (Normal tt) c1 ->
    resolve p a c1 i = (Throw e, c2) ->
    ErrorPath e c2 (s, t) ->
    Path c
      (s,
       EStartRootSpan (jsOr (rootSpanOptions middlewareOptions)
                            (rootSpanOptions defaultOptions))
         :: hookTrace "preResolve" preRecord 0 calls
         ++ [ESpanStart; EResolveBegin p a c1 i; EResolveEnd (Throw e)]
         ++ t)
| Unsampled calls c1 ecalls r c2 :
    span = None ->
    dispatched "preResolve" preRecord (tracedContext c) calls (Normal tt) c1 ->
    dispatched "resolveError" (errorRecord (typeError "start")) c1 ecalls r
      c2 ->
    Path c
      ({| context := c2; promise := Pending |},
       EStartRootSpan (jsOr (rootSpanOptions middlewareOptions)
                            (rootSpanOptions defaultOptions))
         :: hookTrace "preResolve" preRecord 0 calls
         ++ hookTrace "resolveError" (errorRecord (typeError "start")) 0
              ecalls).
End Paths.

(** ** Further observations *)

Definition isStartRootSpan (e : Event) : bool :=
  match e with EStartRootSpan _ => true | _ => false end.

Definition isPReject (e : Event) : bool :=
  match e with EPReject _ => true | _ => false end.


(** The end of a callback registered under [hookName] that threw. *)
Definition isFailureOf (hookName : string) (e : Event) : bool :=
  match e with
  | EHookEnd n _ (Throw _) => String.eqb n hookName
  | _ => false
  end.

(** The record the middleware builds for a dispatch of [hookName], for the
    call of a resolver on [p], [a], [i] under [span]: the object literals of
    lines 98 to 102, 110 to 114 and 120 to 125.  No other name is
    dispatched. *)
Definition recordFor (span : option Span) (p : Parent) (a : Args) (i : Info)
    (hookName : string) (hc : IHookFnContext) : Prop :=
  hookRootSpan hc = span
  /\ parent (data hc) = p /\ args (data hc) = a /\ info (data hc) = i
  /\ if String.eqb hookName "preResolve" then
       resolvedData (data hc) = None /\ err hc = None
     else if String.eqb hookName "postResolve" then
       (exists d, resolvedData (data hc) = Some d) /\ err hc = None
     else if String.eqb hookName "resolveError" then
       resolvedData (data hc) = None /\ exists e, err hc = Some e
     else False.

Definition wellFormedCall (span : option Span) (p : Parent) (a : Args)
    (i : Info) (e : Event) : Prop :=
  match e with
  | EHookBegin n _ hc _ => recordFor span p a i n hc
  | _ => True
  end.

(** A callback that starts with event [e] finds a context that satisfies
    [P]. *)
Definition holdsOnEntry (P : Ctx -> Prop) (e : Event) : Prop :=
  match e with
  | EHookBegin _ _ _ c => P c
  | EResolveBegin _ _ c _ => P c
  | _ => True
  end.

(** The context the first callback of a trace, hook or resolver, is called
    on. *)
Fixpoint firstEntry (t : list Event) : option Ctx :=
  match t with
  | [] => None
  | EHookBegin _ _ _ c :: _ => Some c
  | EResolveBegin _ _ c _ :: _ => Some c
  | _ :: rest => firstEntry rest
  end.

(** Callbacks that keep a property of the context. *)
Definition hookKeeps (P : Ctx -> Prop) (hookFn : IMiddlewareHookFn) : Prop :=
  forall hc c, P c -> P (hookFn hc c).2.

Definition resolverKeeps (P : Ctx -> Prop) (resolve : Resolver) : Prop :=
  forall p a c i, P c -> P (resolve p a c i).2.

End Model.

(** ** The factory *)

Section Factory.
Context {Tracer Span Parent Args Info Data Err UserCtx : Type}.
Context {TracerConfig ExporterConfig Exporter : Type}.

(** The tracing library, as far as the factory uses it:
    [tracing.start(config).tracer] and [new JaegerTraceExporter(options)]. *)
Variable tracingStart : TracerConfig -> Tracer.
Variable JaegerTraceExporter : ExporterConfig -> Exporter.

Record IOptions := {
  tracerConfig : TracerConfig;
  exporterConfig : ExporterConfig;
  middlewareOptions : IMiddlewareOptions
}.

(** What the construction does to the tracing library. *)
Inductive FactoryEvent : Type :=
| FTracingStart (config : TracerConfig)
| FRegisterSpanEventListener (tr : Tracer) (exporter : Exporter).

(** The exported function (lines 73 to 134): it starts the tracer, registers
    the exporter on it and returns the middleware, closed over the tracer.
    The [hooks] argument may be left out; it then defaults to the empty
    object.  The second component is the returned function.  Whether the
    tracer that [tracerConfig] produced hands out a span for a call, or
    [null], is decided inside the tracer (by its sampling, for one); the
    returned function takes what the tracer hands out as its first
    argument. *)
Definition graphqlJaegerMiddlewareFactory (typeError : string -> Err)
    (options : IOptions)
    (hooks : option (gmap string (list (@IMiddlewareHookFn
                Tracer Span Parent Args Info Data Err UserCtx))))
    : list FactoryEvent
      * (option Span ->
         @Resolver Tracer Span Parent Args Info Data Err UserCtx ->
         Parent -> Args -> @Ctx Tracer Span UserCtx -> Info ->
         @Store Tracer Span Data Err UserCtx
         * list (@Event Tracer Span Parent Args Info Data Err UserCtx)) :=
  let tr := tracingStart (tracerConfig options) in
  ([FTracingStart (tracerConfig options);
    FRegisterSpanEventListener tr
      (JaegerTraceExporter (exporterConfig options))],
   graphqlJaegerMiddleware typeError tr (middlewareOptions options)
     (match hooks with Some h => h | None => ∅ end)).

End Factory.

(** ** Concrete invocations

    Callbacks and resolvers over a context that keeps a list of notes, used
    to run the middleware on explicit inputs. *)

Module Scenario.

Definition SCtx : Type := @Ctx unit nat (list string).

Definition SHook : Type :=
  @IMiddlewareHookFn unit nat unit unit unit string string (list string).

Definition SResolver : Type :=
  @Resolver unit nat unit unit unit string string (list string).

Definition SEvent : Type :=
  @Event unit nat unit unit unit string string (list string).

(** A hook that appends a note to the context. *)
Definition note (msg : string) : SHook := fun _ c =>
  (Normal tt, {| tracing := tracing c; user := user c ++ [msg] |}).

(** A hook that throws. *)
Definition failing (e : string) : SHook := fun _ c => (Throw e, c).

(** A hook that notes the error of its record. *)
Definition recordErr : SHook := fun hc c =>
  match err hc with
  | Some e => (Normal tt, {| tracing := tracing c; user := user c ++ [e] |})
  | None => (Normal tt, c)
  end.

(** A hook that does [context.tracing = undefined]. *)
Definition dropTracing : SHook := fun _ c =>
  (Normal tt, {| tracing := None; user := user c |}).

Definition returns (d : string) : SResolver := fun _ _ c _ => (Normal d, c).

Definition throws (e : string) : SResolver := fun _ _ c _ => (Throw e, c).

Definition SRecord : Type :=
  @IHookFnContext nat unit unit unit string string.

Definition ctx0 : SCtx := {| tracing := None; user := [] |}.

(** The context of the call once the handle is attached, holding [notes]. *)
Definition traced (notes : list string) : SCtx :=
  {| tracing := Some (tracingHandle tt (Some 7)); user := notes |}.

(** The same when the tracer handed out [null]. *)
Definition tracedNull (notes : list string) : SCtx :=
  {| tracing := Some (tracingHandle tt None); user := notes |}.

(** The TypeError raised on property [prop] of [null] or [undefined]. *)
Definition typeErrorOf (prop : string) : string :=
  String.append "TypeError: "%string prop.

(** The records the three dispatches are given. *)
Definition preRec : SRecord := preRecord (Some 7) tt tt tt.
Definition postRec (d : string) : SRecord := postRecord (Some 7) tt tt tt d.
Definition errorRec (e : string) : SRecord := errorRecord (Some 7) tt tt tt e.

Definition start : SEvent :=
  EStartRootSpan (Some {| name := "graphqlRequest"%string |}).

(** The store of a call that has not begun. *)
Definition store0 : @Store unit nat string string (list string) :=
  {| context := ctx0; promise := Pending |}.

Definition noOptions : IMiddlewareOptions := {| rootSpanOptions := None |}.

(** The middleware of tracer [tt], called on [ctx0]; the tracer hands out
    span [7]. *)
Definition run (hooks : gmap string (list SHook)) (resolve : SResolver)
    : @Store unit nat string string (list string) * list SEvent :=
  graphqlJaegerMiddleware typeErrorOf tt noOptions hooks (Some 7) resolve
    tt tt ctx0 tt.

(** The same call when the tracer hands out [null]. *)
Definition runUnsampled (hooks : gmap string (list SHook))
    (resolve : SResolver)
    : @Store unit nat string string (list string) * list SEvent :=
  graphqlJaegerMiddleware typeErrorOf tt noOptions hooks None resolve
    tt tt ctx0 tt.

Definition preFails : gmap string (list SHook) :=
  {[ "preResolve"%string := [failing "pre"%string] ]}.

Definition errorHookFails : gmap string (list SHook) :=
  {[ "resolveError"%string := [failing "hook"%string] ]}.

Definition postFails : gmap string (list SHook) :=
  {[ "postResolve"%string := [failing "post"%string] ]}.

Definition postAndErrorHookFail : gmap string (list SHook) :=
  <[ "postResolve"%string := [failing "post"%string] ]>
    {[ "resolveError"%string := [failing "hook"%string] ]}.

Definition dropsTracing : gmap string (list SHook) :=
  {[ "preResolve"%string := [dropTracing] ]}.

(** Two callbacks on every lifecycle name; the resolveError ones note the
    error they are handed. *)
Definition noting : gmap string (list SHook) :=
  <[ "preResolve"%string := [note "pre1"%string; note "pre2"%string] ]>
    (<[ "postResolve"%string := [note "post1"%string; note "post2"%string] ]>
       {[ "resolveError"%string := [recordErr; note "err2"%string] ]}).

(** A dispatch whose second callback throws. *)
Definition secondFails : gmap string (list SHook) :=
  {[ "postResolve"%string :=
       [note "A"%string; failing "B"%string; note "C"%string] ]}.

(** Every lifecycle name registered with an empty list, or not at all. *)
Definition emptyLists : gmap string (list SHook) :=
  <[ "preResolve"%string := [] ]> {[ "resolveError"%string := [] ]}.

End Scenario.

(** * Properties *)

Section Theory.
Context {Tracer Span Parent Args Info Data Err UserCtx : Type}.

Local Abbreviation Hook :=
  (@IMiddlewareHookFn Tracer Span Parent Args Info Data Err UserCtx).
Local Abbreviation Hooks := (gmap string (list Hook)).
Local Abbreviation Ev := (@Event Tracer Span Parent Args Info Data Err UserCtx).
Local Abbreviation St := (@Store Tracer Span Data Err UserCtx).
Local Abbreviation Call := (@HookCall Tracer Span Err UserCtx).
Local Abbreviation HC := (@IHookFnContext Span Parent Args Info Data Err).
Local Abbreviation Res :=
  (@Resolver Tracer Span Parent Args Info Data Err UserCtx).

Implicit Types (hooks : Hooks) (hook : list Hook) (s : St) (t : list Ev).
Implicit Types (calls : list Call) (hookName : string) (hc : HC).
Implicit Types (resolve : Res) (c : @Ctx Tracer Span UserCtx).

(** ** The dispatcher *)

Lemma setContext_context s : setContext (context s) s = s.
Proof. by destruct s. Qed.

Lemma setContext_twice c c' s :
  setContext c' (setContext c s) = setContext c' s.
Proof. done. Qed.

(** The loop makes its calls one after the other, from the first callback
    on, and stops at the first one that throws. *)
Lemma runHookFns_calls hookName hc hook :
  forall i s, exists calls r final,
    runHookFns hookName hc i hook s
      = (r, setContext final s, hookTrace hookName hc i calls)
    /\ callsOf hc hook (context s) calls final
    /\ dispatchOutcome hook calls r.
Proof.
  induction hook as [|hookFn hook IH]; intros i s.
  - exists [], (Normal tt), (context s). cbn.
    rewrite setContext_context. repeat split; constructor.
  - cbn [runHookFns]. unfold bind, callHook.
    destruct (hookFn hc (context s)) as [[[]|e] c'] eqn:Hcall.
    + destruct (IH (S i) (setContext c' s))
        as (calls & r & final & -> & Hof & Hout).
      exists ((context s, Normal tt) :: calls), r, final.
      rewrite setContext_twice. split; [done|]. split.
      * cbn. split; [done|]. by exists c'.
      * destruct r as [[]|g]; cbn in *.
        -- destruct Hout as [-> Hall]. split; [done|]. by constructor.
        -- destruct Hout as (pre & c & -> & Hall).
           exists ((context s, Normal tt) :: pre), c. split; [done|].
           by constructor.
    + exists [(context s, Throw e)], (Throw e), c'. split; [done|]. split.
      * cbn. split; [done|]. by exists c'.
      * cbn. by exists [], (context s).
Qed.

Lemma runHook_calls hooks hookName hc s :
  exists calls r final,
    runHook hooks hookName hc s
      = (r, setContext final s, hookTrace hookName hc 0 calls)
    /\ dispatched hooks hookName hc (context s) calls r final.
Proof.
  unfold runHook, dispatched, registered.
  destruct (hooks !! hookName) as [hook|].
  - apply runHookFns_calls.
  - exists [], (Normal tt), (context s). cbn.
    rewrite setContext_context. repeat split; constructor.
Qed.

(** ** The middleware follows one of the paths *)

Lemma errorHandler_path (typeError : string -> Err) hooks (sp : Span)
    (p : Parent) (a : Args) (i : Info) (e : Err) c (pr : PromiseState) :
  pr = Pending ->
  exists r s t,
    bind (runHook hooks "resolveError" (errorRecord (Some sp) p a i e))
      (fun _ => bind (spanEnd typeError (Some sp)) (fun _ => pReject e))
      {| context := c; promise := pr |} = (r, s, t)
    /\ ErrorPath hooks (Some sp) p a i e c (s, t).
Proof.
  intros ->. unfold bind at 1.
  destruct (runHook_calls hooks "resolveError"
              (errorRecord (Some sp) p a i e)
              {| context := c; promise := Pending |})
    as (calls & r & final & Hrun & Hd).
  unfold errorRecord in *. rewrite Hrun. cbn in Hd.
  destruct r as [[]|g]; cbn.
  - eexists _, _, _. split; [done|]. by apply ErrorHandled.
  - eexists _, _, _. split; [done|]. by eapply ErrorHookFails.
Qed.

(** Storing what the tracer handed out completes the handle the tracer was
    put in. *)
Lemma attachRootSpan_attachTracer (typeError : string -> Err) (tr : Tracer)
    (span : option Span) c (pr : PromiseState) :
  @attachRootSpan Tracer Span Parent Args Info Data Err UserCtx
    typeError span {| context := attachTracer tr c; promise := pr |}
  = (Normal tt, {| context := tracedContext tr span c; promise := pr |}, []).
Proof. reflexivity. Qed.

Lemma middleware_path (typeError : string -> Err) (tr : Tracer)
    (mo : IMiddlewareOptions) hooks (span : option Span) resolve
    (p : Parent) (a : Args) c (i : Info) :
  Path typeError tr mo hooks span resolve p a i c
    (graphqlJaegerMiddleware typeError tr mo hooks span resolve p a c i).
Proof.
  unfold graphqlJaegerMiddleware, spanBody.
  unfold bind at 1. rewrite attachRootSpan_attachTracer.
  unfold bind at 1.
  destruct (runHook_calls hooks "preResolve" (preRecord span p a i)
              {| context := tracedContext tr span c; promise := Pending |})
    as (calls & r & c1 & Hrun & Hd).
  unfold preRecord in Hrun. rewrite Hrun. cbn in Hd.
  destruct r as [[]|g].
  2:{ cbn. by eapply PreHookFails. }
  unfold tryCatch. unfold bind at 1.
  destruct span as [sp|]; unfold spanStart at 1.
  2:{ unfold setContext; cbn [context promise].
      unfold bind at 1.
      destruct (runHook_calls hooks "resolveError"
                  (errorRecord None p a i (typeError "start"))
                  {| context := c1; promise := Pending |})
        as (ecalls & r & c2 & Hrun' & Hd').
      unfold errorRecord in Hrun'. rewrite Hrun'. cbn in Hd'.
      unfold setContext; cbn [context promise].
      destruct r as [[]|g]; cbn; rewrite ?app_nil_r; by eapply Unsampled. }
  unfold bind at 1, callResolver.
  cbn [context setContext promise].
  destruct (resolve p a c1 i) as [[d|e] c2] eqn:Hres.
  - unfold bind at 1.
    destruct (runHook_calls hooks "postResolve"
                (postRecord (Some sp) p a i d)
                {| context := c2; promise := Pending |})
      as (calls' & r' & c3 & Hrun' & Hd').
    unfold postRecord in Hrun'.
    unfold setContext in *; cbn [context promise] in *.
    rewrite Hrun'.
    destruct r' as [[]|h].
    + cbn. eapply Resolved; eauto.
    + destruct (errorHandler_path typeError hooks sp p a i h c3 Pending
                  eq_refl)
        as (r4 & s4 & t4 & Hrun4 & Hpath).
      unfold errorRecord in Hrun4. rewrite Hrun4. cbn.
      eapply PostHookFails; eauto.
  - unfold setContext in *; cbn [context promise] in *.
    destruct (errorHandler_path typeError hooks sp p a i e c2 Pending eq_refl)
      as (r4 & s4 & t4 & Hrun4 & Hpath).
    unfold errorRecord in Hrun4. rewrite Hrun4. cbn.
    eapply ResolverFails; eauto.
Qed.

(** ** Reading a trace *)

Lemma countEv_nil (f : Ev -> bool) : countEv f [] = 0.
Proof. reflexivity. Qed.

Lemma countEv_cons (f : Ev -> bool) e t :
  countEv f (e :: t) = (if f e then 1 else 0) + countEv f t.
Proof. unfold countEv. cbn. by destruct (f e). Qed.

Lemma countEv_app (f : Ev -> bool) t1 t2 :
  countEv f (t1 ++ t2) = countEv f t1 + countEv f t2.
Proof. unfold countEv. by rewrite List.filter_app, length_app. Qed.

Lemma countEv_hookTrace (f : Ev -> bool) hookName hc calls :
  (forall e, isHookEvent e = true -> f e = false) ->
  forall i, countEv f (hookTrace hookName hc i calls) = 0.
Proof.
  intros Hf. induction calls as [|[c r] calls IH]; intros i; [done|].
  cbn [hookTrace]. rewrite !countEv_cons, IH, !Hf; done.
Qed.

Lemma countEv_hookTrace_other hookName other hc calls :
  String.eqb hookName other = false ->
  forall i, countEv (isHookEventOf other) (hookTrace hookName hc i calls) = 0.
Proof.
  intros Hne. induction calls as [|[c r] calls IH]; intros i; [done|].
  cbn [hookTrace]. rewrite !countEv_cons, IH. cbn. by rewrite Hne.
Qed.

Lemma resolverResults_app t1 t2 :
  resolverResults (t1 ++ t2) = resolverResults t1 ++ resolverResults t2.
Proof.
  induction t1 as [|e t1 IH]; [done|].
  destruct e; cbn; by rewrite ?IH.
Qed.

Lemma resolverResults_hookTrace hookName hc calls :
  forall i, resolverResults (hookTrace hookName hc i calls) = [].
Proof.
  induction calls as [|[c r] calls IH]; intros i; [done|]. cbn. apply IH.
Qed.

Lemma hookTrace_app hookName hc calls1 calls2 :
  forall i,
    hookTrace hookName hc i (calls1 ++ calls2)
    = hookTrace hookName hc i calls1
        ++ hookTrace hookName hc (i + length calls1) calls2.
Proof.
  induction calls1 as [|[c r] calls1 IH]; intros i; cbn.
  - by rewrite Nat.add_0_r.
  - rewrite IH.
    by replace (S i + length calls1) with (i + S (length calls1)) by lia.
Qed.

(** Calls that completed leave no failure in the trace. *)
Lemma countEv_completed hookName hc calls :
  Forall completed calls ->
  forall i, countEv isHookFailure (hookTrace hookName hc i calls) = 0.
Proof.
  intros Hall. induction Hall as [|[c r] calls Hc _ IH]; intros i; [done|].
  cbn [hookTrace]. rewrite !countEv_cons, IH.
  unfold completed in Hc. cbn in Hc. by subst r.
Qed.

(** Normalising the counts and resolver results of a trace given by its
    shape. *)
Ltac read_trace :=
  unfold spanStarts, spanEnds;
  repeat progress
    (repeat first
       [ rewrite countEv_app
       | rewrite countEv_cons
       | rewrite countEv_nil
       | rewrite countEv_hookTrace by (by intros [])
       | rewrite countEv_hookTrace_other by done
       | rewrite resolverResults_app
       | rewrite resolverResults_hookTrace ];
     cbn).

(** The paths, read off the result of the middleware. *)
Ltac paths H :=
  inversion H as
    [ calls g c1 Hpre
    | sp calls c1 d c2 calls' c3 Hspan Hpre Hres Hpost
    | sp calls c1 d c2 calls' h c3 s' t' Hspan Hpre Hres Hpost Herr
    | sp calls c1 e c2 s' t' Hspan Hpre Hres Herr
    | calls c1 ecalls r c2 Hspan Hpre Hhandler ];
  subst;
  try (inversion Herr as [ecalls efinal Hhandler | ecalls g efinal Hhandler];
       subst).

(** ** The span and the promise *)

(** The span is ended exactly when the promise is settled: an invocation
    that leaves the promise pending never calls [span.end()], and one that
    settles it has started and ended the span once. *)
Lemma span_ended_iff_settled (typeError : string -> Err) (tr : Tracer)
    (mo : IMiddlewareOptions) hooks (span : option Span) resolve (p : Parent)
    (a : Args) c (i : Info) :
  let res :=
    graphqlJaegerMiddleware typeError tr mo hooks span resolve p a c i in
  (promise res.1 = Pending /\ spanEnds res.2 = 0 /\ spanStarts res.2 <= 1)
  \/ (promise res.1 <> Pending /\ spanEnds res.2 = 1 /\ spanStarts res.2 = 1).
Proof.
  intros res. subst res.
  pose proof (middleware_path typeError tr mo hooks span resolve p a c i) as HP.
  destruct (graphqlJaegerMiddleware typeError tr mo hooks span resolve p a c i)
    as [s t].
  cbn [fst snd]. paths HP; read_trace; cbn; auto with lia.
Qed.

(** ** Claims on the dispatcher *)

Lemma callsOf_length hc hook calls :
  forall (c final : Ctx), callsOf hc hook c calls final ->
    length calls <= length hook.
Proof.
  revert hook. induction calls as [|[c0 r] calls IH]; intros hook c final H.
  - cbn. lia.
  - destruct hook as [|hookFn hook]; [done|].
    destruct H as (_ & c' & _ & H). apply IH in H. cbn. lia.
Qed.

(** C7. A dispatch calls the callbacks registered under the name one after
    the other, in registration order, each call ending before the next one
    begins and finding the context its predecessor left.  The dispatch ends
    normally after every registered callback completed; if a callback
    throws, it is the last one called, the callbacks after it are not
    called, and the dispatch throws that same error to its caller. *)
Theorem C7_runHook_sequential_fail_fast hooks hookName hc hook s :
  hooks !! hookName = Some hook ->
  exists calls r final,
    runHook hooks hookName hc s
      = (r, setContext final s, hookTrace hookName hc 0 calls)
    /\ callsOf hc hook (context s) calls final
    /\ length calls <= length hook
    /\ match r with
       | Normal _ => length calls = length hook /\ Forall completed calls
       | Throw e =>
           exists pre c,
             calls = pre ++ [(c, Throw e)] /\ Forall completed pre
       end.
Proof.
  intros Hlook.
  destruct (runHook_calls hooks hookName hc s)
    as (calls & r & final & Hrun & Hof & Hout).
  unfold registered in Hof, Hout. rewrite Hlook in Hof, Hout.
  exists calls, r, final. repeat split; try done.
  eapply callsOf_length, Hof.
Qed.

(** Without callbacks a dispatch does nothing, whatever the record. *)
Lemma runHook_unregistered hooks hookName :
  registered hooks hookName = [] ->
  runHook hooks hookName = fun _ => ret tt.
Proof.
  unfold registered, runHook.
  destruct (hooks !! hookName) as [hook|]; [intros ->|intros _]; done.
Qed.

Lemma registered_empty hookName : registered (∅ : Hooks) hookName = [].
Proof. unfold registered. by rewrite lookup_empty. Qed.

(** The middleware built without hooks, when the tracer hands out a span:
    the span around the resolver. *)
Lemma middleware_without_hooks (typeError : string -> Err) (tr : Tracer)
    (mo : IMiddlewareOptions) (sp : Span) resolve
    (p : Parent) (a : Args) c (i : Info) :
  graphqlJaegerMiddleware typeError tr mo (∅ : Hooks) (Some sp) resolve
    p a c i
  = let opts := jsOr (rootSpanOptions mo) (rootSpanOptions defaultOptions) in
    let c1 := tracedContext tr (Some sp) c in
    match resolve p a c1 i with
    | (Normal d, c2) =>
        ({| context := c2; promise := Fulfilled d |},
         [EStartRootSpan opts; ESpanStart; EResolveBegin p a c1 i;
          EResolveEnd (Normal d); ESpanEnd; EPResolve d])
    | (Throw e, c2) =>
        ({| context := c2; promise := Rejected e |},
         [EStartRootSpan opts; ESpanStart; EResolveBegin p a c1 i;
          EResolveEnd (Throw e); ESpanEnd; EPReject e])
    end.
Proof.
  unfold graphqlJaegerMiddleware, spanBody.
  rewrite !(runHook_unregistered ∅) by apply registered_empty.
  unfold bind at 1. rewrite attachRootSpan_attachTracer.
  unfold tryCatch, bind, spanStart, spanEnd, callResolver, ret, pResolve,
    pReject, settle.
  cbn.
  by destruct (resolve p a (tracedContext tr (Some sp) c) i) as [[d|e] c2].
Qed.

(** The middleware built without hooks, when the tracer hands out [null]:
    [span.start()] and then [span.end()] raise, the resolver is not called
    and the promise is left pending. *)
Lemma middleware_without_hooks_unsampled (typeError : string -> Err)
    (tr : Tracer) (mo : IMiddlewareOptions) resolve (p : Parent) (a : Args)
    c (i : Info) :
  graphqlJaegerMiddleware typeError tr mo (∅ : Hooks) None resolve p a c i
  = ({| context := tracedContext tr None c; promise := Pending |},
     [EStartRootSpan (jsOr (rootSpanOptions mo)
                           (rootSpanOptions defaultOptions))]).
Proof.
  unfold graphqlJaegerMiddleware, spanBody.
  rewrite !(runHook_unregistered ∅) by apply registered_empty.
  unfold bind at 1. by rewrite attachRootSpan_attachTracer.
Qed.

(** C8. Dispatching a name that has no list, or an empty one, does nothing:
    it completes, and adds no event and no change of the store.  A
    middleware whose three lifecycle names have no callbacks behaves, on
    every invocation, as the middleware built without hooks; when the tracer
    hands out a span, the caller's promise then settles with what the
    resolver did on the traced context. *)
Theorem C8_no_hooks_no_effect (typeError : string -> Err) (tr : Tracer)
    (mo : IMiddlewareOptions) hooks (span : option Span) resolve
    (p : Parent) (a : Args) c (i : Info) hookName hc s :
  (hooks !! hookName = None ->
     runHook hooks hookName hc s = (Normal tt, s, []))
  /\ (hooks !! hookName = Some [] ->
       runHook hooks hookName hc s = (Normal tt, s, []))
  /\ (registered hooks "preResolve" = [] ->
      registered hooks "postResolve" = [] ->
      registered hooks "resolveError" = [] ->
      let res :=
        graphqlJaegerMiddleware typeError tr mo hooks span resolve p a c i in
      res = graphqlJaegerMiddleware typeError tr mo (∅ : Hooks) span
              resolve p a c i
      /\ (span <> None ->
          promise res.1
            = promiseOf (resolve p a (tracedContext tr span c) i).1
          /\ context res.1 = (resolve p a (tracedContext tr span c) i).2)).
Proof.
  split; [|split].
  - intros H. unfold runHook. by rewrite H.
  - intros H. unfold runHook. by rewrite H.
  - intros Hpre Hpost Herr res. subst res.
    assert (graphqlJaegerMiddleware typeError tr mo hooks span resolve p a c i
            = graphqlJaegerMiddleware typeError tr mo (∅ : Hooks) span
                resolve p a c i)
      as ->.
    { unfold graphqlJaegerMiddleware, spanBody.
      rewrite !(runHook_unregistered hooks) by done.
      by rewrite !(runHook_unregistered ∅) by apply registered_empty. }
    split; [done|]. intros Hspan. destruct span as [sp|]; [|done].
    rewrite middleware_without_hooks. cbv zeta.
    by destruct (resolve p a (tracedContext tr (Some sp) c) i)
      as [[d|e] c2].
Qed.

(** ** Claims on the order of one invocation *)

(** C5. The trace of every invocation begins with the preResolve dispatch.
    If that dispatch completes, every registered preResolve callback was
    called and completed, in registration order.  When the tracer handed out
    a span the trace then goes on with [span.start()] followed at once by
    the call of the resolver, and the resolver is called, and the span
    started, nowhere else.  When the tracer handed out [null], or when the
    dispatch throws, the resolver is not called and the span is not started
    at all. *)
Theorem C5_preResolve_hooks_then_span_start_then_resolver
    (typeError : string -> Err)
    (tr : Tracer) (mo : IMiddlewareOptions) hooks (span : option Span)
    resolve (p : Parent) (a : Args) c (i : Info) :
  let t :=
    (graphqlJaegerMiddleware typeError tr mo hooks span resolve p a c i).2 in
  exists calls r c1 rest,
    dispatched hooks "preResolve" (preRecord span p a i)
      (tracedContext tr span c) calls r c1
    /\ t = EStartRootSpan (jsOr (rootSpanOptions mo)
                                (rootSpanOptions defaultOptions))
             :: hookTrace "preResolve" (preRecord span p a i) 0 calls
             ++ rest
    /\ match r, span with
       | Normal _, Some _ =>
           exists rest',
             rest = ESpanStart :: EResolveBegin p a c1 i :: rest'
             /\ countEv isResolveBegin rest' = 0
             /\ spanStarts rest' = 0
       | Normal _, None =>
           countEv isResolveBegin rest = 0 /\ spanStarts rest = 0
       | Throw _, _ => rest = []
       end.
Proof.
  intros t. subst t.
  pose proof (middleware_path typeError tr mo hooks span resolve p a c i) as HP.
  destruct (graphqlJaegerMiddleware typeError tr mo hooks span resolve p a c i)
    as [s t].
  paths HP; cbn [snd].
  - exists calls, (Throw g), c1, []. by rewrite app_nil_r.
  - exists calls, (Normal tt), c1. eexists. split; [done|].
    split; [reflexivity|]. eexists. split; [reflexivity|]. by read_trace.
  - exists calls, (Normal tt), c1. eexists. split; [done|].
    split; [reflexivity|]. eexists. split; [reflexivity|]. by read_trace.
  - exists calls, (Normal tt), c1. eexists. split; [done|].
    split; [reflexivity|]. eexists. split; [reflexivity|]. by read_trace.
  - exists calls, (Normal tt), c1. eexists. split; [done|].
    split; [reflexivity|]. eexists. split; [reflexivity|]. by read_trace.
  - exists calls, (Normal tt), c1. eexists. split; [done|].
    split; [reflexivity|]. eexists. split; [reflexivity|]. by read_trace.
  - exists calls, (Normal tt), c1. eexists. split; [done|].
    split; [reflexivity|]. by read_trace.
Qed.

Ltac read_trace_in H :=
  repeat progress
    (repeat first
       [ rewrite resolverResults_app in H
       | rewrite resolverResults_hookTrace in H ];
     cbn in H).

(** C6. When the resolver has returned [D], the postResolve callbacks are
    called right after that, every one with a record whose [resolvedData]
    is [D]; none was called before, and none is called later.  [D] is
    handed to the caller only after all of them completed, as the last
    event of the trace; if one of them throws, [D] is not handed over. *)
Theorem C6_postResolve_hooks_between_result_and_return
    (typeError : string -> Err)
    (tr : Tracer) (mo : IMiddlewareOptions) hooks (span : option Span) resolve
    (p : Parent) (a : Args) c (i : Info) (D : Data) :
  let res :=
    graphqlJaegerMiddleware typeError tr mo hooks span resolve p a c i in
  Normal D ∈ resolverResults res.2 ->
  exists pre calls r c2 c3 rest,
    res.2 = pre ++ EResolveEnd (Normal D)
              :: hookTrace "postResolve" (postRecord span p a i D) 0 calls
              ++ rest
    /\ resolvedData (data (postRecord span p a i D : HC)) = Some D
    /\ dispatched hooks "postResolve" (postRecord span p a i D) c2 calls r c3
    /\ countEv (isHookEventOf "postResolve") pre = 0
    /\ countEv isPResolve pre = 0
    /\ countEv (isHookEventOf "postResolve") rest = 0
    /\ match r with
       | Normal _ =>
           rest = [ESpanEnd; EPResolve D] /\ promise res.1 = Fulfilled D
       | Throw _ =>
           countEv isPResolve rest = 0 /\ promise res.1 <> Fulfilled D
       end.
Proof.
  intros res. subst res.
  pose proof (middleware_path typeError tr mo hooks span resolve p a c i) as HP.
  destruct (graphqlJaegerMiddleware typeError tr mo hooks span resolve p a c i)
    as [s t].
  cbn [fst snd]. intros HD.
  paths HP; read_trace_in HD;
    try (by apply elem_of_nil in HD);
    apply list_elem_of_singleton in HD; try discriminate;
    injection HD as <-.
  - exists (EStartRootSpan (jsOr (rootSpanOptions mo)
                                 (rootSpanOptions defaultOptions))
              :: hookTrace "preResolve" (preRecord (Some sp) p a i) 0 calls
              ++ [ESpanStart; EResolveBegin p a c1 i]),
      calls', (Normal tt), c2, c3, [ESpanEnd; EPResolve D].
    split; [by cbn; rewrite <- app_assoc|].
    split; [done|]. split; [done|].
    repeat split; try done; by read_trace.
  - exists (EStartRootSpan (jsOr (rootSpanOptions mo)
                                 (rootSpanOptions defaultOptions))
              :: hookTrace "preResolve" (preRecord (Some sp) p a i) 0 calls
              ++ [ESpanStart; EResolveBegin p a c1 i]),
      calls', (Throw h), c2, c3,
      (hookTrace "resolveError" (errorRecord (Some sp) p a i h) 0 ecalls
         ++ [ESpanEnd; EPReject h]).
    split; [by cbn; rewrite <- app_assoc|].
    split; [done|]. split; [done|].
    repeat split; try done; by read_trace.
  - exists (EStartRootSpan (jsOr (rootSpanOptions mo)
                                 (rootSpanOptions defaultOptions))
              :: hookTrace "preResolve" (preRecord (Some sp) p a i) 0 calls
              ++ [ESpanStart; EResolveBegin p a c1 i]),
      calls', (Throw h), c2, c3,
      (hookTrace "resolveError" (errorRecord (Some sp) p a i h) 0 ecalls).
    split; [by cbn; rewrite <- app_assoc|].
    split; [done|]. split; [done|].
    repeat split; try done; by read_trace.
Qed.

(** ** What the caller receives *)

(** The error a dispatch throws is the error its last call ended with. *)
Lemma failed_call_in_trace hookName hc hook calls (g : Err) :
  dispatchOutcome hook calls (Throw g) ->
  exists k, EHookEnd hookName k (Throw g) ∈ hookTrace hookName hc 0 calls.
Proof.
  intros (pre & c & -> & _). exists (length pre).
  rewrite hookTrace_app, elem_of_app. right. cbn. right. left.
Qed.

Ltac in_trace :=
  repeat first [rewrite elem_of_cons | rewrite elem_of_app]; tauto.

Lemma countEv_elem_of (f : Ev -> bool) e t :
  e ∈ t -> f e = true -> countEv f t <> 0.
Proof.
  intros Hin Hf. induction t as [|e' t IH].
  - by apply elem_of_nil in Hin.
  - rewrite countEv_cons. apply elem_of_cons in Hin as [<-|Hin].
    + rewrite Hf. lia.
    + specialize (IH Hin). destruct (f e'); lia.
Qed.

(** A trace that holds the end of a throwing call refutes the assumption
    that no call threw. *)
Ltac refute_no_failure :=
  let Hno := fresh in
  intros Hno; exfalso;
  match goal with
  | H : EHookEnd ?n ?k (Throw ?g) ∈ _ |- _ =>
      revert Hno; apply (countEv_elem_of _ (EHookEnd n k (Throw g)));
      [in_trace|done]
  end.

(** C3, as the code has it.  The promise is fulfilled only with the value
    the resolver returned.  It is rejected only with the error the resolver
    threw or, when the resolver returned a value and a postResolve callback
    then threw, with the error of that callback.  When the tracer hands out
    a span and no callback throws, the promise settles with exactly what the
    resolver did. *)
Theorem C3_caller_receives_resolver_outcome_or_postResolve_error
    (typeError : string -> Err) (tr : Tracer) (mo : IMiddlewareOptions) hooks
    (span : option Span) resolve (p : Parent) (a : Args) c (i : Info) :
  let res :=
    graphqlJaegerMiddleware typeError tr mo hooks span resolve p a c i in
  (forall d, promise res.1 = Fulfilled d ->
     resolverResults res.2 = [Normal d])
  /\ (forall e, promise res.1 = Rejected e ->
       resolverResults res.2 = [Throw e]
       \/ exists d k,
            resolverResults res.2 = [Normal d]
            /\ EHookEnd "postResolve" k (Throw e) ∈ res.2)
  /\ (span <> None ->
      countEv isHookFailure res.2 = 0 ->
      exists r, resolverResults res.2 = [r] /\ promise res.1 = promiseOf r).
Proof.
  intros res. subst res.
  pose proof (middleware_path typeError tr mo hooks span resolve p a c i) as HP.
  destruct (graphqlJaegerMiddleware typeError tr mo hooks span resolve p a c i)
    as [s t].
  cbn [fst snd].
  paths HP; cbn [promise];
    repeat match goal with
    | H : dispatched _ ?n ?hc _ _ (Throw _) _ |- _ =>
        destruct H as [_ H]; apply (failed_call_in_trace n hc) in H as [? ?]
    end;
    (split;
       [ intros ? Hp;
         first [discriminate Hp | injection Hp as <-; by read_trace]
       | split;
         [ intros ? Hp; first [discriminate Hp | injection Hp as <-]
         | intros Hspan ] ]).
  - refute_no_failure.
  - intros _. exists (Normal d). by read_trace.
  - right. exists d, x. split; [by read_trace|]. in_trace.
  - refute_no_failure.
  - refute_no_failure.
  - left. by read_trace.
  - intros _. exists (Throw e). by read_trace.
  - refute_no_failure.
  - by destruct Hspan.
Qed.

(** ** The tracing handle on the context *)

(** Calls of callbacks that keep [context.tracing] all find the handle the
    first one found, and leave it behind. *)
Lemma callsOf_seesHandle hookName hc (h : Tracing) calls :
  forall hook c (final : Ctx) i,
    callsOf hc hook c calls final ->
    Forall hookKeepsTracing hook ->
    tracing c = Some h ->
    Forall (seesHandle h) (hookTrace hookName hc i calls)
    /\ tracing final = Some h.
Proof.
  induction calls as [|[c0 r] calls IH]; intros hook c final i Hof Hkeep Hc.
  - cbn in Hof. subst final. by split.
  - destruct hook as [|hookFn hook]; [done|].
    destruct Hof as (-> & c' & Hcall & Hof).
    apply Forall_cons in Hkeep as [Hfn Hkeep].
    specialize (Hfn hc c). rewrite Hcall in Hfn. cbn in Hfn.
    destruct (IH hook c' final (S i) Hof Hkeep) as [Hall Hfinal];
      [congruence|].
    split; [|done]. cbn [hookTrace].
    apply Forall_cons. split; [done|]. by apply Forall_cons.
Qed.

Lemma hookTrace_carriesSpan hookName hc (span : option Span) calls :
  hookRootSpan hc = span ->
  forall i, Forall (carriesSpan span) (hookTrace hookName hc i calls).
Proof.
  intros Hspan. induction calls as [|[c r] calls IH]; intros i; cbn.
  - constructor.
  - apply Forall_cons. split; [done|]. apply Forall_cons. by split.
Qed.

Lemma dispatched_seesHandle hooks hookName hc (h : Tracing) c calls r
    (final : Ctx) :
  dispatched hooks hookName hc c calls r final ->
  tracing c = Some h ->
  Forall hookKeepsTracing (registered hooks hookName) ->
  Forall (seesHandle h) (hookTrace hookName hc 0 calls)
  /\ tracing final = Some h.
Proof. intros [Hof _] Hc Hkeep. by eapply callsOf_seesHandle. Qed.

Ltac split_trace :=
  repeat first
    [ apply Forall_nil_2
    | apply Forall_cons; split
    | apply Forall_app; split ].

(** Following the handle along a path: through every dispatch, and through
    the call of a resolver that keeps it. *)
Ltac follow_handle Hstep :=
  repeat match goal with
  | H : dispatched _ _ _ ?c0 _ _ _, Hc : tracing ?c0 = Some _ |- _ =>
      destruct (dispatched_seesHandle _ _ _ _ _ _ _ _ H Hc);
      [assumption|]; clear H
  | H : dispatched _ _ _ (tracedContext ?tr ?span ?c) _ _ _ |- _ =>
      destruct (dispatched_seesHandle _ _ _ (tracingHandle tr span) _ _ _ _
                  H eq_refl);
      [assumption|]; clear H
  | H : ?resolve _ _ ?c0 _ = _, Hc : tracing ?c0 = Some _ |- _ =>
      pose proof (Hstep _ _ _ H Hc); clear H
  end.

(** The first callback of a dispatch finds the context the dispatch started
    in; a dispatch that calls nothing leaves that context to what follows. *)
Lemma firstEntry_calls hookName hc hook c0 calls (final : Ctx) t x i :
  callsOf hc hook c0 calls final ->
  firstEntry (hookTrace hookName hc i calls ++ t) = Some x ->
  x = c0 \/ (final = c0 /\ firstEntry t = Some x).
Proof.
  destruct calls as [|[c' r] calls]; cbn.
  - intros -> Hx. by right.
  - destruct hook as [|hookFn hook]; [done|].
    intros (-> & _) [= <-]. by left.
Qed.

Ltac first_entry_of :=
  match goal with
  | Hd : dispatched _ ?n ?hc _ ?calls _ _,
    H : firstEntry (hookTrace ?n ?hc _ ?calls ++ _) = _ |- _ =>
      destruct (firstEntry_calls _ _ _ _ _ _ _ _ _ (proj1 Hd) H)
        as [?|[? ?]];
      clear H; [congruence|]
  end.

Ltac first_entry :=
  first
    [ first_entry_of
    | match goal with
      | H : firstEntry (hookTrace _ _ _ _) = _ |- _ =>
          rewrite <- (app_nil_r (hookTrace _ _ _ _)) in H
      end;
      first_entry_of ];
  cbn [firstEntry] in *.

(** C9, as the code has it.  What the middleware does by itself, whatever
    the callbacks do: the first callback that runs, hook or resolver, finds
    the incoming context with [context.tracing] replaced by one handle, made
    of the tracer and of what the tracer handed out for this call (a span,
    or [null]); and the record of every hook call carries what the tracer
    handed out.  What depends on the callbacks: if every registered callback
    and the resolver leave [context.tracing] alone, every callback and the
    resolver find that handle, and it is still there when the call is
    over. *)
Theorem C9_handle_visible_while_callbacks_keep_it (typeError : string -> Err)
    (tr : Tracer) (mo : IMiddlewareOptions) hooks (span : option Span) resolve
    (p : Parent) (a : Args) c (i : Info) :
  let res :=
    graphqlJaegerMiddleware typeError tr mo hooks span resolve p a c i in
  (forall c0, firstEntry res.2 = Some c0 -> c0 = tracedContext tr span c)
  /\ Forall (carriesSpan span) res.2
  /\ (Forall hookKeepsTracing (registered hooks "preResolve") ->
      Forall hookKeepsTracing (registered hooks "postResolve") ->
      Forall hookKeepsTracing (registered hooks "resolveError") ->
      resolverKeepsTracing resolve ->
      Forall (seesHandle (tracingHandle tr span)) res.2
      /\ tracing (context res.1) = Some (tracingHandle tr span)).
Proof.
  intros res. subst res.
  pose proof (middleware_path typeError tr mo hooks span resolve p a c i) as HP.
  destruct (graphqlJaegerMiddleware typeError tr mo hooks span resolve p a c i)
    as [s t].
  cbn [fst snd].
  split; [|split].
  - intros x Hx.
    paths HP; cbn [firstEntry] in Hx;
      first_entry; try congruence;
      first_entry; congruence.
  - paths HP; split_trace; try done; by apply hookTrace_carriesSpan.
  - intros Hk1 Hk2 Hk3 Hframe.
    assert (forall (c1 c2 : Ctx) (r : Completion Data),
              resolve p a c1 i = (r, c2) ->
              tracing c1 = Some (tracingHandle tr span) ->
              tracing c2 = Some (tracingHandle tr span)) as Hstep.
    { intros c1 c2 r Heq <-. specialize (Hframe p a c1 i).
      by rewrite Heq in Hframe. }
    split.
    + paths HP; follow_handle Hstep; split_trace; done.
    + paths HP; follow_handle Hstep; done.
Qed.

(** ** The catch block *)

(** When the resolver throws [E], the resolveError callbacks are dispatched
    with a record whose [err] is [E].  If that dispatch completes, the span
    is ended and the promise rejected with [E]; if a resolveError callback
    throws, the trace stops there and the promise stays pending. *)
Lemma resolver_failure_outcome (typeError : string -> Err) (tr : Tracer)
    (mo : IMiddlewareOptions) hooks (span : option Span) resolve (p : Parent)
    (a : Args) c (i : Info) (E : Err) :
  let res :=
    graphqlJaegerMiddleware typeError tr mo hooks span resolve p a c i in
  Throw E ∈ resolverResults res.2 ->
  exists pre calls r c2 c3,
    res.2 = pre ++ EResolveEnd (Throw E)
              :: hookTrace "resolveError" (errorRecord span p a i E) 0 calls
              ++ handlerTail E r
    /\ err (errorRecord span p a i E : HC) = Some E
    /\ dispatched hooks "resolveError" (errorRecord span p a i E) c2 calls r c3
    /\ promise res.1 = handlerPromise E r.
Proof.
  intros res. subst res.
  pose proof (middleware_path typeError tr mo hooks span resolve p a c i) as HP.
  destruct (graphqlJaegerMiddleware typeError tr mo hooks span resolve p a c i)
    as [s t].
  cbn [fst snd]. intros HE.
  paths HP; read_trace_in HE;
    try (by apply elem_of_nil in HE);
    apply list_elem_of_singleton in HE; try discriminate;
    injection HE as <-.
  - exists (EStartRootSpan (jsOr (rootSpanOptions mo)
                                 (rootSpanOptions defaultOptions))
              :: hookTrace "preResolve" (preRecord (Some sp) p a i) 0 calls
              ++ [ESpanStart; EResolveBegin p a c1 i]),
      ecalls, (Normal tt), c2, efinal.
    split; [by cbn; rewrite <- app_assoc|]. done.
  - exists (EStartRootSpan (jsOr (rootSpanOptions mo)
                                 (rootSpanOptions defaultOptions))
              :: hookTrace "preResolve" (preRecord (Some sp) p a i) 0 calls
              ++ [ESpanStart; EResolveBegin p a c1 i]),
      ecalls, (Throw g), c2, efinal.
    split; [by cbn; rewrite <- app_assoc, app_nil_r|]. done.
Qed.

(** When the resolver returned [D] and [D] does not reach the caller, a
    postResolve callback threw some [H]: the resolveError callbacks are
    dispatched with a record whose [err] is [H], and the catch block goes on
    as for an error of the resolver. *)
Lemma postResolve_failure_outcome (typeError : string -> Err) (tr : Tracer)
    (mo : IMiddlewareOptions) hooks (span : option Span) resolve (p : Parent)
    (a : Args) c (i : Info) (D : Data) :
  let res :=
    graphqlJaegerMiddleware typeError tr mo hooks span resolve p a c i in
  Normal D ∈ resolverResults res.2 ->
  promise res.1 <> Fulfilled D ->
  exists pre calls c2 H c3 ecalls r c4,
    res.2 = pre ++ EResolveEnd (Normal D)
              :: hookTrace "postResolve" (postRecord span p a i D) 0 calls
              ++ hookTrace "resolveError" (errorRecord span p a i H) 0 ecalls
              ++ handlerTail H r
    /\ dispatched hooks "postResolve" (postRecord span p a i D) c2 calls
         (Throw H) c3
    /\ err (errorRecord span p a i H : HC) = Some H
    /\ dispatched hooks "resolveError" (errorRecord span p a i H) c3 ecalls r c4
    /\ promise res.1 = handlerPromise H r.
Proof.
  intros res. subst res.
  pose proof (middleware_path typeError tr mo hooks span resolve p a c i) as HP.
  destruct (graphqlJaegerMiddleware typeError tr mo hooks span resolve p a c i)
    as [s t].
  cbn [fst snd]. intros HD Hnot.
  paths HP; read_trace_in HD;
    try (by apply elem_of_nil in HD);
    apply list_elem_of_singleton in HD; try discriminate;
    injection HD as <-; try done.
  - exists (EStartRootSpan (jsOr (rootSpanOptions mo)
                                 (rootSpanOptions defaultOptions))
              :: hookTrace "preResolve" (preRecord (Some sp) p a i) 0 calls
              ++ [ESpanStart; EResolveBegin p a c1 i]),
      calls', c2, h, c3, ecalls, (Normal tt), efinal.
    split; [by cbn; rewrite <- app_assoc|]. done.
  - exists (EStartRootSpan (jsOr (rootSpanOptions mo)
                                 (rootSpanOptions defaultOptions))
              :: hookTrace "preResolve" (preRecord (Some sp) p a i) 0 calls
              ++ [ESpanStart; EResolveBegin p a c1 i]),
      calls', c2, h, c3, ecalls, (Throw g), efinal.
    split; [by cbn; rewrite <- app_assoc, app_nil_r|]. done.
Qed.

(** * Further properties of the code *)

(** ** The root span *)

(** [tracer.startRootSpan] is called once per invocation, before anything
    else, with the configured [rootSpanOptions] or, when none are configured,
    with the default name ["graphqlRequest"]. *)
Theorem startRootSpan_once_with_configured_or_default_options
    (typeError : string -> Err) (tr : Tracer) (mo : IMiddlewareOptions) hooks
    (span : option Span) resolve (p : Parent) (a : Args) c (i : Info) :
  let t :=
    (graphqlJaegerMiddleware typeError tr mo hooks span resolve p a c i).2 in
  exists rest,
    t = EStartRootSpan
          (match rootSpanOptions mo with
           | Some o => Some o
           | None => Some {| name := "graphqlRequest" |}
           end) :: rest
    /\ countEv isStartRootSpan rest = 0.
Proof.
  intros t. subst t.
  pose proof (middleware_path typeError tr mo hooks span resolve p a c i) as HP.
  destruct (graphqlJaegerMiddleware typeError tr mo hooks span resolve p a c i)
    as [s t].
  cbn [snd].
  paths HP; eexists;
    (split; [by destruct (rootSpanOptions mo)|by read_trace]).
Qed.

(** In one invocation [span.start()], [span.end()] and the resolver are each
    called at most once, and the promise functions [pResolve] and [pReject]
    are called at most once between them: the resolver is never retried and
    the promise never settled twice. *)
Theorem span_resolver_and_promise_used_at_most_once
    (typeError : string -> Err) (tr : Tracer) (mo : IMiddlewareOptions) hooks
    (span : option Span) resolve (p : Parent) (a : Args) c (i : Info) :
  let t :=
    (graphqlJaegerMiddleware typeError tr mo hooks span resolve p a c i).2 in
  spanStarts t <= 1 /\ spanEnds t <= 1
  /\ countEv isResolveBegin t <= 1 /\ length (resolverResults t) <= 1
  /\ countEv isPResolve t + countEv isPReject t <= 1.
Proof.
  intros t. subst t.
  pose proof (middleware_path typeError tr mo hooks span resolve p a c i) as HP.
  destruct (graphqlJaegerMiddleware typeError tr mo hooks span resolve p a c i)
    as [s t].
  cbn [snd]. paths HP; read_trace; cbn; lia.
Qed.

Lemma trace_tail (x e1 e2 e3 : Ev) t1 t2 t3 :
  x :: t1 ++ e1 :: e2 :: e3 :: t2 ++ t3
  = (x :: t1 ++ e1 :: e2 :: e3 :: t2) ++ t3.
Proof. cbn. by rewrite <- app_assoc. Qed.

Lemma trace_tail' (x e1 e2 e3 : Ev) t1 t2 t3 t4 :
  x :: t1 ++ e1 :: e2 :: e3 :: t2 ++ t3 ++ t4
  = (x :: t1 ++ e1 :: e2 :: e3 :: t2 ++ t3) ++ t4.
Proof.
  cbn. rewrite <- app_assoc. cbn. by rewrite <- app_assoc.
Qed.

(** Whenever the promise is settled, [span.end()] was called just before and
    nothing happens after: the trace ends with [span.end()] followed by the
    call of [pResolve] or [pReject] with what the promise holds. *)
Theorem span_ended_just_before_promise_settles
    (typeError : string -> Err) (tr : Tracer) (mo : IMiddlewareOptions) hooks
    (span : option Span) resolve (p : Parent) (a : Args) c (i : Info) :
  let res :=
    graphqlJaegerMiddleware typeError tr mo hooks span resolve p a c i in
  (forall d, promise res.1 = Fulfilled d ->
     exists pre, res.2 = pre ++ [ESpanEnd; EPResolve d])
  /\ (forall e, promise res.1 = Rejected e ->
       exists pre, res.2 = pre ++ [ESpanEnd; EPReject e]).
Proof.
  intros res. subst res.
  pose proof (middleware_path typeError tr mo hooks span resolve p a c i) as HP.
  destruct (graphqlJaegerMiddleware typeError tr mo hooks span resolve p a c i)
    as [s t].
  cbn [fst snd].
  paths HP; cbn [promise]; split;
    try (intros ? [= <-]); try (intros ? [=]).
  - eexists. apply trace_tail.
  - eexists. apply trace_tail'.
  - eexists. apply trace_tail.
Qed.

(** ** The context the middleware is given *)

(** [context.tracing = {}] discards whatever the context held under
    [tracing], for instance the handle an earlier invocation on the same
    context left there: an invocation depends on the incoming context only
    through the rest of it. *)
Theorem previous_tracing_handle_discarded
    (typeError : string -> Err) (tr : Tracer) (mo : IMiddlewareOptions) hooks
    (span : option Span) resolve (p : Parent) (a : Args) c c' (i : Info) :
  user c = user c' ->
  graphqlJaegerMiddleware typeError tr mo hooks span resolve p a c i
  = graphqlJaegerMiddleware typeError tr mo hooks span resolve p a c' i.
Proof.
  intros Huser. unfold graphqlJaegerMiddleware, attachTracer.
  by rewrite Huser.
Qed.

(** ** The hooks object *)

Lemma runHook_insert_other hooks (k : string) (l : list Hook) hookName :
  k <> hookName ->
  runHook (<[k := l]> hooks) hookName = runHook hooks hookName.
Proof.
  intros Hne. unfold runHook. by rewrite lookup_insert_ne.
Qed.

(** Only the names [preResolve], [postResolve] and [resolveError] are ever
    looked up: callbacks registered under any other name are never called
    and change nothing. *)
Theorem callbacks_under_other_names_ignored
    (typeError : string -> Err) (tr : Tracer) (mo : IMiddlewareOptions) hooks
    (k : string) (l : list Hook)
    (span : option Span) resolve (p : Parent) (a : Args) c (i : Info) :
  k <> "preResolve" -> k <> "postResolve" -> k <> "resolveError" ->
  graphqlJaegerMiddleware typeError tr mo (<[k := l]> hooks) span resolve
    p a c i
  = graphqlJaegerMiddleware typeError tr mo hooks span resolve p a c i.
Proof.
  intros H1 H2 H3. unfold graphqlJaegerMiddleware, spanBody.
  by rewrite !runHook_insert_other.
Qed.

Lemma bind_ret_l {A B : Type} (x : A) (k : A -> @M Tracer Span Parent Args
    Info Data Err UserCtx B) s :
  bind (ret x) k s = k x s.
Proof. unfold bind, ret. by destruct (k x s) as [[r s2] t2]. Qed.

Lemma bind_assoc {A B C : Type} (m : @M Tracer Span Parent Args Info Data Err
    UserCtx A) (k : A -> M B) (k' : B -> M C) s :
  bind (bind m k) k' s = bind m (fun x => bind (k x) k') s.
Proof.
  unfold bind. destruct (m s) as [[[x|e] s1] t1]; [|done].
  destruct (k x s1) as [[[y|e] s2] t2]; [|done].
  destruct (k' y s2) as [[r s3] t3]. by rewrite app_assoc.
Qed.

Lemma bind_ext {A B : Type} (m : @M Tracer Span Parent Args Info Data Err
    UserCtx A) (k k' : A -> M B) s :
  (forall x s', k x s' = k' x s') -> bind m k s = bind m k' s.
Proof.
  intros Hk. unfold bind. destruct (m s) as [[[x|e] s1] t1]; [|done].
  by rewrite Hk.
Qed.

Lemma runHookFns_app hookName hc (l1 l2 : list Hook) :
  forall i s,
    runHookFns hookName hc i (l1 ++ l2) s
    = bind (runHookFns hookName hc i l1)
        (fun _ => runHookFns hookName hc (i + length l1) l2) s.
Proof.
  induction l1 as [|hookFn l1 IH]; intros i s.
  - cbn [app length runHookFns]. by rewrite bind_ret_l, Nat.add_0_r.
  - cbn [app length runHookFns]. rewrite bind_assoc.
    apply bind_ext. intros _ s'. rewrite IH.
    by replace (S i + length l1) with (i + S (length l1)) by lia.
Qed.

(** Callbacks appended to a list run after the ones already there, and only
    if those completed: dispatching [l1 ++ l2] is dispatching [l1] and then,
    unless that threw, going on with [l2]. *)
Theorem dispatch_of_appended_callbacks hooks hookName hc (l1 l2 : list Hook)
    s :
  hooks !! hookName = Some (l1 ++ l2) ->
  runHook hooks hookName hc s
  = bind (runHook (<[hookName := l1]> hooks) hookName hc)
      (fun _ => runHookFns hookName hc (length l1) l2) s.
Proof.
  intros Hlook. unfold runHook.
  rewrite Hlook, lookup_insert_eq. apply runHookFns_app.
Qed.

(** ** When the caller is left waiting *)

Lemma countEv_failureOf_other hookName other hc calls :
  String.eqb hookName other = false ->
  forall i, countEv (isFailureOf other) (hookTrace hookName hc i calls) = 0.
Proof.
  intros Hne. induction calls as [|[c r] calls IH]; intros i; [done|].
  cbn [hookTrace]. rewrite !countEv_cons, IH. cbn.
  destruct r; by rewrite ?Hne.
Qed.

Lemma countEv_failureOf_completed other hookName hc calls :
  Forall completed calls ->
  forall i, countEv (isFailureOf other) (hookTrace hookName hc i calls) = 0.
Proof.
  intros Hall. induction Hall as [|[c r] calls Hc _ IH]; intros i; [done|].
  cbn [hookTrace]. rewrite !countEv_cons, IH.
  unfold completed in Hc. cbn in Hc. by subst r.
Qed.

(** A dispatch leaves one failure of its own name in the trace if it threw,
    and none if it completed. *)
Lemma countEv_failureOf_dispatch hookName hc hook calls (r : Completion unit) :
  dispatchOutcome hook calls r ->
  countEv (isFailureOf hookName) (hookTrace hookName hc 0 calls)
  = match r with Normal _ => 0 | Throw _ => 1 end.
Proof.
  destruct r as [[]|g]; cbn.
  - intros [_ Hall]. by apply countEv_failureOf_completed.
  - intros (pre & c & -> & Hall).
    rewrite hookTrace_app, countEv_app, countEv_failureOf_completed by done.
    cbn [hookTrace]. rewrite !countEv_cons, countEv_nil. cbn.
    by rewrite String.eqb_refl.
Qed.

(** The failures each dispatch of a path left in the trace. *)
Ltac count_failures :=
  repeat match goal with
  | H : dispatched _ ?n ?hc _ _ _ _ |- _ =>
      apply proj2, (countEv_failureOf_dispatch n hc) in H; cbn in H
  end;
  repeat first
    [ rewrite countEv_app
    | rewrite countEv_cons
    | rewrite countEv_nil
    | rewrite countEv_failureOf_other by done
    | rewrite countEv_hookTrace_other by done
    | match goal with E : countEv _ _ = _ |- _ => rewrite E; clear E end ];
  cbn.

(** The promise the caller holds stays pending exactly when the tracer
    handed out [null] or a preResolve or a resolveError callback threw; in
    every other case it is settled. *)
Theorem promise_pending_iff_preResolve_or_resolveError_hook_threw
    (typeError : string -> Err) (tr : Tracer) (mo : IMiddlewareOptions) hooks
    (span : option Span) resolve (p : Parent) (a : Args) c (i : Info) :
  let res :=
    graphqlJaegerMiddleware typeError tr mo hooks span resolve p a c i in
  promise res.1 = Pending
  <-> span = None
      \/ countEv (isFailureOf "preResolve") res.2
         + countEv (isFailureOf "resolveError") res.2 <> 0.
Proof.
  intros res. subst res.
  pose proof (middleware_path typeError tr mo hooks span resolve p a c i) as HP.
  destruct (graphqlJaegerMiddleware typeError tr mo hooks span resolve p a c i)
    as [s t].
  cbn [fst snd].
  paths HP; cbn [promise]; count_failures;
    (split;
       [ intros Hp; first [discriminate Hp | by left | right; lia]
       | intros [Hs|Hf]; first [done | discriminate Hs | lia] ]).
Qed.

(** An invocation in which the resolver is never called never starts nor
    ends the span and leaves the promise pending; it is one in which the
    tracer handed out [null] or the preResolve dispatch threw. *)
Theorem resolver_not_called_outcome (typeError : string -> Err) (tr : Tracer)
    (mo : IMiddlewareOptions) hooks (span : option Span) resolve (p : Parent)
    (a : Args) c (i : Info) :
  let res :=
    graphqlJaegerMiddleware typeError tr mo hooks span resolve p a c i in
  resolverResults res.2 = [] ->
  promise res.1 = Pending /\ spanStarts res.2 = 0 /\ spanEnds res.2 = 0
  /\ (span = None \/ countEv (isFailureOf "preResolve") res.2 = 1).
Proof.
  intros res. subst res.
  pose proof (middleware_path typeError tr mo hooks span resolve p a c i) as HP.
  destruct (graphqlJaegerMiddleware typeError tr mo hooks span resolve p a c i)
    as [s t].
  cbn [fst snd]. intros Hnone.
  paths HP; read_trace_in Hnone; try discriminate Hnone;
    (split; [done|]); (split; [by read_trace|]); (split; [by read_trace|]);
    first [by left | right; by count_failures].
Qed.

(** ** Which callbacks run *)

(** The postResolve and the resolveError callbacks follow the outcome of the
    [try] block: no postResolve callback runs when the resolver threw, no
    resolveError callback runs when the promise is fulfilled, and resolveError
    callbacks run only after the resolver or a postResolve callback threw, or
    when the tracer handed out [null] (the error is then the one
    [span.start()] raised). *)
Theorem postResolve_and_resolveError_follow_the_outcome
    (typeError : string -> Err) (tr : Tracer) (mo : IMiddlewareOptions) hooks
    (span : option Span) resolve (p : Parent) (a : Args) c (i : Info) :
  let res :=
    graphqlJaegerMiddleware typeError tr mo hooks span resolve p a c i in
  (forall e, Throw e ∈ resolverResults res.2 ->
     countEv (isHookEventOf "postResolve") res.2 = 0)
  /\ (forall d, promise res.1 = Fulfilled d ->
       countEv (isHookEventOf "resolveError") res.2 = 0)
  /\ (countEv (isHookEventOf "resolveError") res.2 = 0
      \/ (exists e, resolverResults res.2 = [Throw e])
      \/ countEv (isFailureOf "postResolve") res.2 = 1
      \/ span = None).
Proof.
  intros res. subst res.
  pose proof (middleware_path typeError tr mo hooks span resolve p a c i) as HP.
  destruct (graphqlJaegerMiddleware typeError tr mo hooks span resolve p a c i)
    as [s t].
  cbn [fst snd].
  paths HP; cbn [promise]; (split; [|split]);
    try (intros ? [= <-]); try (intros ? [=]);
    try (intros e0 He; read_trace_in He;
         first [ by apply elem_of_nil in He
               | apply list_elem_of_singleton in He; try discriminate ]);
    try (by read_trace).
  - left. by read_trace.
  - left. by read_trace.
  - right. right. left. by count_failures.
  - right. right. left. by count_failures.
  - right. left. exists e. by read_trace.
  - right. left. exists e. by read_trace.
  - by do 3 right.
Qed.



(** ** What the callbacks are given *)

Lemma hookTrace_wellFormed (span : option Span) (p : Parent) (a : Args)
    (i : Info)
    hookName hc calls :
  recordFor span p a i hookName hc ->
  forall k, Forall (wellFormedCall span p a i) (hookTrace hookName hc k calls).
Proof.
  intros Hrec. induction calls as [|[c r] calls IH]; intros k; cbn.
  - constructor.
  - apply Forall_cons. split; [done|]. apply Forall_cons. by split.
Qed.

(** Every hook call is given the span of the invocation and the parent, the
    arguments and the info the middleware was called with.  A preResolve
    record has neither [resolvedData] nor [err], a postResolve record has
    [resolvedData] and no [err], a resolveError record has [err] and no
    [resolvedData]; no callback is called under any other name. *)
Theorem hook_records_carry_the_call
    (typeError : string -> Err) (tr : Tracer) (mo : IMiddlewareOptions) hooks
    (span : option Span) resolve (p : Parent) (a : Args) c (i : Info) :
  Forall (wellFormedCall span p a i)
    (graphqlJaegerMiddleware typeError tr mo hooks span resolve p a c i).2.
Proof.
  pose proof (middleware_path typeError tr mo hooks span resolve p a c i) as HP.
  destruct (graphqlJaegerMiddleware typeError tr mo hooks span resolve p a c i)
    as [s t].
  cbn [snd].
  paths HP; split_trace; try done;
    apply hookTrace_wellFormed;
    unfold recordFor, preRecord, postRecord, errorRecord, hookRecord; cbn;
    repeat split; eauto.
Qed.

(** ** What the middleware leaves of the context *)

Lemma callsOf_invariant (P : Ctx -> Prop) hookName hc calls :
  forall hook c (final : Ctx) i,
    callsOf hc hook c calls final ->
    Forall (hookKeeps P) hook ->
    P c ->
    Forall (holdsOnEntry P) (hookTrace hookName hc i calls) /\ P final.
Proof.
  induction calls as [|[c0 r] calls IH]; intros hook c final i Hof Hkeep Hc.
  - cbn in Hof. subst final. by split.
  - destruct hook as [|hookFn hook]; [done|].
    destruct Hof as (-> & c' & Hcall & Hof).
    apply Forall_cons in Hkeep as [Hfn Hkeep].
    specialize (Hfn hc c Hc). rewrite Hcall in Hfn. cbn in Hfn.
    destruct (IH hook c' final (S i) Hof Hkeep Hfn) as [Hall Hfinal].
    split; [|done]. cbn [hookTrace].
    apply Forall_cons. split; [done|]. by apply Forall_cons.
Qed.

Lemma dispatched_invariant (P : Ctx -> Prop) hooks hookName hc c calls r
    (final : Ctx) :
  dispatched hooks hookName hc c calls r final ->
  P c ->
  Forall (hookKeeps P) (registered hooks hookName) ->
  Forall (holdsOnEntry P) (hookTrace hookName hc 0 calls) /\ P final.
Proof. intros [Hof _] Hc Hkeep. by eapply callsOf_invariant. Qed.

Ltac follow_invariant P Hstep :=
  repeat match goal with
  | H : dispatched _ _ _ ?c0 _ _ _, Hc : P ?c0 |- _ =>
      destruct (dispatched_invariant P _ _ _ _ _ _ _ H Hc);
      [assumption|]; clear H
  | H : ?resolve _ _ ?c0 _ = _, Hc : P ?c0 |- _ =>
      pose proof (Hstep _ _ _ H Hc); clear H
  end.

(** After it has attached the handle the middleware never writes to the
    context: a property of the context that holds once the handle is
    attached, and that every registered callback and the resolver keep, holds
    whenever a callback or the resolver is called, and still holds when the
    invocation is over. *)
Theorem context_changes_only_through_callbacks (P : Ctx -> Prop)
    (typeError : string -> Err) (tr : Tracer) (mo : IMiddlewareOptions) hooks
    (span : option Span) resolve (p : Parent) (a : Args) c (i : Info) :
  Forall (hookKeeps P) (registered hooks "preResolve") ->
  Forall (hookKeeps P) (registered hooks "postResolve") ->
  Forall (hookKeeps P) (registered hooks "resolveError") ->
  resolverKeeps P resolve ->
  P (tracedContext tr span c) ->
  let res :=
    graphqlJaegerMiddleware typeError tr mo hooks span resolve p a c i in
  Forall (holdsOnEntry P) res.2 /\ P (context res.1).
Proof.
  intros Hk1 Hk2 Hk3 Hframe Hinit res. subst res.
  pose proof (middleware_path typeError tr mo hooks span resolve p a c i) as HP.
  destruct (graphqlJaegerMiddleware typeError tr mo hooks span resolve p a c i)
    as [s t].
  cbn [fst snd].
  assert (forall (c1 c2 : Ctx) (r : Completion Data),
            resolve p a c1 i = (r, c2) -> P c1 -> P c2) as Hstep.
  { intros c1 c2 r Heq Hc1. specialize (Hframe p a c1 i Hc1).
    by rewrite Heq in Hframe. }
  split.
  - paths HP; follow_invariant P Hstep; split_trace; done.
  - paths HP; follow_invariant P Hstep; done.
Qed.

(** ** When the tracer hands out no span *)

(** When the tracer hands [null] to the callback, the resolver is never
    called, the span is neither started nor ended, and the promise stays
    pending.  If the preResolve dispatch completed, [span.start()] raised a
    TypeError inside the [try]: the resolveError callbacks are dispatched
    with a record whose [err] is that TypeError, and the trace ends with
    that dispatch, since [span.end()] raises in turn. *)
Theorem unsampled_invocation_outcome (typeError : string -> Err)
    (tr : Tracer) (mo : IMiddlewareOptions) hooks resolve (p : Parent)
    (a : Args) c (i : Info) :
  let res :=
    graphqlJaegerMiddleware typeError tr mo hooks None resolve p a c i in
  promise res.1 = Pending
  /\ resolverResults res.2 = []
  /\ spanStarts res.2 = 0 /\ spanEnds res.2 = 0
  /\ (countEv (isFailureOf "preResolve") res.2 = 0 ->
      exists pre calls r c1 c2,
        res.2 = pre ++ hookTrace "resolveError"
                         (errorRecord None p a i (typeError "start")) 0 calls
        /\ err (errorRecord None p a i (typeError "start") : HC)
           = Some (typeError "start")
        /\ dispatched hooks "resolveError"
             (errorRecord None p a i (typeError "start")) c1 calls r c2
        /\ countEv (isHookEventOf "resolveError") pre = 0).
Proof.
  intros res. subst res.
  pose proof (middleware_path typeError tr mo hooks None resolve p a c i)
    as HP.
  destruct (graphqlJaegerMiddleware typeError tr mo hooks None resolve p a c i)
    as [s t].
  cbn [fst snd].
  paths HP; try discriminate Hspan;
    (split; [done|]); (split; [by read_trace|]);
    (split; [by read_trace|]); (split; [by read_trace|]).
  - intros Hnone. exfalso. revert Hnone. by count_failures.
  - intros _.
    exists (EStartRootSpan (jsOr (rootSpanOptions mo)
                                 (rootSpanOptions defaultOptions))
              :: hookTrace "preResolve" (preRecord None p a i) 0 calls),
      ecalls, r, c1, c2.
    repeat split; try done; try apply Hhandler. by read_trace.
Qed.

End Theory.

(** ** The factory *)

Section FactoryTheory.
Context {Tracer Span Parent Args Info Data Err UserCtx : Type}.
Context {TracerConfig ExporterConfig Exporter : Type}.
Variable tracingStart : TracerConfig -> Tracer.
Variable JaegerTraceExporter : ExporterConfig -> Exporter.

(** When the [hooks] argument is left out, the middleware the factory
    returns involves no callback and attaches the tracer the construction
    started from [tracerConfig].  On a call for which that tracer hands out
    a span, it wraps the call of the resolver in the span and settles the
    promise with what the resolver did.  On a call for which the tracer
    hands out [null], it calls neither the span nor the resolver and leaves
    the promise pending. *)
Theorem factory_without_hooks_argument (typeError : string -> Err)
    (options : @IOptions TracerConfig ExporterConfig) :
  let made :=
    @graphqlJaegerMiddlewareFactory Tracer Span Parent Args Info Data Err
      UserCtx TracerConfig ExporterConfig Exporter
      tracingStart JaegerTraceExporter typeError options None in
  let tr := tracingStart (tracerConfig options) in
  let opts := jsOr (rootSpanOptions (middlewareOptions options))
                   (rootSpanOptions defaultOptions) in
  (forall sp resolve p a c i,
     made.2 (Some sp) resolve p a c i
     = let c1 := tracedContext tr (Some sp) c in
       match resolve p a c1 i with
       | (Normal d, c2) =>
           ({| context := c2; promise := Fulfilled d |},
            [EStartRootSpan opts; ESpanStart; EResolveBegin p a c1 i;
             EResolveEnd (Normal d); ESpanEnd; EPResolve d])
       | (Throw e, c2) =>
           ({| context := c2; promise := Rejected e |},
            [EStartRootSpan opts; ESpanStart; EResolveBegin p a c1 i;
             EResolveEnd (Throw e); ESpanEnd; EPReject e])
       end)
  /\ (forall resolve p a c i,
       made.2 None resolve p a c i
       = ({| context := tracedContext tr None c; promise := Pending |},
          [EStartRootSpan opts])).
Proof.
  intros made tr opts. subst made tr opts. split.
  - intros sp resolve p a c i. cbn [snd graphqlJaegerMiddlewareFactory].
    apply middleware_without_hooks.
  - intros resolve p a c i. cbn [snd graphqlJaegerMiddlewareFactory].
    apply middleware_without_hooks_unsampled.
Qed.

End FactoryTheory.

(** * The claims on explicit invocations *)

Import Scenario.

Local Open Scope string_scope.
Local Open Scope list_scope.

(** ** The scenarios of the specification *)

(** The resolver returns ["ok"] and no hooks are registered: the caller
    receives ["ok"], and the span is started and ended once. *)
Example scenario_no_hooks :
  run ∅ (returns "ok")
  = ({| context := traced []; promise := Fulfilled "ok" |},
     [start; ESpanStart; EResolveBegin tt tt (traced []) tt;
      EResolveEnd (Normal "ok"); ESpanEnd; EPResolve "ok"]).
Proof. reflexivity. Qed.

(** The resolver throws ["E"] and a resolveError hook notes the error it is
    given: the caller receives ["E"], the notes are exactly [["E"]], and the
    span is ended. *)
Example scenario_error_noted :
  let res := run {[ "resolveError" := [recordErr] ]} (throws "E") in
  promise res.1 = Rejected "E"
  /\ user (context res.1) = ["E"]
  /\ spanEnds res.2 = 1.
Proof. vm_compute. done. Qed.

(** Two preResolve hooks each add a note: both notes are there when the
    resolver starts. *)
Example scenario_two_preResolve_hooks :
  EResolveBegin tt tt (traced ["pre1"; "pre2"]) tt
    ∈ (run noting (returns "ok")).2.
Proof. vm_compute. do 6 right. left. Qed.

(** A dispatch of three callbacks whose second one throws: the third one is
    not called and the dispatch throws the error of the second. *)
Example dispatch_stops_at_failure :
  runHook secondFails "postResolve" (postRec "ok")
    store0
  = (Throw "B",
     {| context := {| tracing := None; user := ["A"] |}; promise := Pending |},
     [EHookBegin "postResolve" 0 (postRec "ok") ctx0;
      EHookEnd "postResolve" 0 (Normal tt);
      EHookBegin "postResolve" 1 (postRec "ok")
        {| tracing := None; user := ["A"] |};
      EHookEnd "postResolve" 1 (Throw "B")]).
Proof. reflexivity. Qed.

(** The tracer hands out [null] and no hooks are registered: [span.start()]
    and [span.end()] raise, the resolver is not called and the promise stays
    pending. *)
Example scenario_unsampled_no_hooks :
  runUnsampled ∅ (returns "ok")
  = ({| context := tracedNull []; promise := Pending |}, [start]).
Proof. reflexivity. Qed.

(** The tracer hands out [null] and a resolveError hook notes the error it
    is given: it is given the TypeError of [span.start()], though the
    resolver never ran. *)
Example scenario_unsampled_error_noted :
  runUnsampled {[ "resolveError" := [recordErr] ]} (returns "ok")
  = ({| context := tracedNull [typeErrorOf "start"]; promise := Pending |},
     [start;
      EHookBegin "resolveError" 0
        (errorRecord None tt tt tt (typeErrorOf "start")) (tracedNull []);
      EHookEnd "resolveError" 0 (Normal tt)]).
Proof. reflexivity. Qed.

(** ** Where the code leaves the span open *)

(** C1, on the code.  With a preResolve callback that throws, the span is
    neither started nor ended; with a resolveError callback that throws, the
    span is started and never ended. *)
Theorem C1_span_not_ended_when_unguarded_hook_fails :
  (spanStarts (run preFails (returns "ok")).2 = 0
   /\ spanEnds (run preFails (returns "ok")).2 = 0)
  /\ (spanStarts (run errorHookFails (throws "E")).2 = 1
      /\ spanEnds (run errorHookFails (throws "E")).2 = 0).
Proof. vm_compute. done. Qed.

(** C2, on the code.  With a preResolve callback that throws, the trace ends
    with that call: [span.end()] is not called, the resolver is not called,
    and the promise of the caller stays pending, so the failure is never
    surfaced. *)
Theorem C2_preResolve_failure_leaves_span_open_and_promise_pending :
  run preFails (returns "ok")
  = ({| context := traced []; promise := Pending |},
     [start; EHookBegin "preResolve" 0 preRec (traced []);
      EHookEnd "preResolve" 0 (Throw "pre")])
  /\ spanEnds (run preFails (returns "ok")).2 = 0.
Proof. vm_compute. done. Qed.

(** C4, on the code.  The resolver throws ["E"] and the resolveError callback
    is given a record whose [err] is ["E"]; when that callback throws, the
    trace ends with its call: the promise is not rejected with ["E"], it stays
    pending. *)
Theorem C4_promise_pending_when_resolveError_hook_fails :
  run errorHookFails (throws "E")
  = ({| context := traced []; promise := Pending |},
     [start; ESpanStart; EResolveBegin tt tt (traced []) tt;
      EResolveEnd (Throw "E");
      EHookBegin "resolveError" 0 (errorRec "E") (traced []);
      EHookEnd "resolveError" 0 (Throw "hook")])
  /\ err (errorRec "E") = Some "E".
Proof. vm_compute. done. Qed.

(** C10, on the code.  The resolver returns ["ok"] and the postResolve
    callback throws ["post"]: the resolveError callback is given a record
    whose [err] is ["post"]; when that callback throws too, the span is not
    ended and the promise is not rejected with ["post"], it stays pending. *)
Theorem C10_postResolve_failure_then_resolveError_failure :
  run postAndErrorHookFail (returns "ok")
  = ({| context := traced []; promise := Pending |},
     [start; ESpanStart; EResolveBegin tt tt (traced []) tt;
      EResolveEnd (Normal "ok");
      EHookBegin "postResolve" 0 (postRec "ok") (traced []);
      EHookEnd "postResolve" 0 (Throw "post");
      EHookBegin "resolveError" 0 (errorRec "post") (traced []);
      EHookEnd "resolveError" 0 (Throw "hook")])
  /\ err (errorRec "post") = Some "post"
  /\ spanEnds (run postAndErrorHookFail (returns "ok")).2 = 0.
Proof. vm_compute. done. Qed.

(** With a resolveError dispatch that completes, the failure of a postResolve
    callback does reach the caller, and the span is ended. *)
Example postResolve_failure_reaches_caller :
  run postFails (returns "ok")
  = ({| context := traced []; promise := Rejected "post" |},
     [start; ESpanStart; EResolveBegin tt tt (traced []) tt;
      EResolveEnd (Normal "ok");
      EHookBegin "postResolve" 0 (postRec "ok") (traced []);
      EHookEnd "postResolve" 0 (Throw "post");
      ESpanEnd; EPReject "post"]).
Proof. reflexivity. Qed.

(** ** Counterexamples *)

(** C3 as stated fails: the resolver returns ["ok"], a postResolve callback
    throws ["post"], and the caller receives the rejection ["post"], not the
    value of the resolver. *)
Lemma C3_counterexample :
  resolverResults (run postFails (returns "ok")).2 = [Normal "ok"]
  /\ promise (run postFails (returns "ok")).1 = Rejected "post"
  /\ promise (run postFails (returns "ok")).1 <> promiseOf (Normal "ok").
Proof. vm_compute. repeat split. discriminate. Qed.

(** C9 as stated fails: after a preResolve callback that clears
    [context.tracing], the resolver is called on a context without handle. *)
Lemma C9_counterexample :
  EResolveBegin tt tt {| tracing := None; user := [] |} tt
    ∈ (run dropsTracing (returns "ok")).2
  /\ ~ Forall (seesHandle (tracingHandle tt (Some 7)))
         (run dropsTracing (returns "ok")).2.
Proof.
  assert (EResolveBegin tt tt {| tracing := None; user := [] |} tt
            ∈ (run dropsTracing (returns "ok")).2) as Hin.
  { vm_compute. do 4 right. left. }
  split; [done|]. intros Hall.
  rewrite Forall_forall in Hall. specialize (Hall _ Hin). discriminate Hall.
Qed.

(** ** The theorems at explicit inputs *)

Lemma C3_witness :
  Some 7 <> None
  /\ countEv isHookFailure (run noting (throws "E")).2 = 0
  /\ exists r,
       resolverResults (run noting (throws "E")).2 = [r]
       /\ promise (run noting (throws "E")).1 = promiseOf r.
Proof.
  assert (Some 7 <> None) as Hspan by discriminate.
  split; [exact Hspan|]. split; [reflexivity|].
  apply (proj2 (proj2
    (C3_caller_receives_resolver_outcome_or_postResolve_error
       typeErrorOf tt noOptions noting (Some 7) (throws "E") tt tt ctx0 tt))
    Hspan).
  reflexivity.
Defined.

Lemma C6_witness :
  Normal "ok" ∈ resolverResults (run noting (returns "ok")).2
  /\ exists pre calls r c2 c3 rest,
       (run noting (returns "ok")).2
         = pre ++ EResolveEnd (Normal "ok")
             :: hookTrace "postResolve" (postRec "ok") 0 calls ++ rest
       /\ resolvedData (data (postRec "ok")) = Some "ok"
       /\ dispatched noting "postResolve" (postRec "ok") c2 calls r c3
       /\ countEv (isHookEventOf "postResolve") pre = 0
       /\ countEv isPResolve pre = 0
       /\ countEv (isHookEventOf "postResolve") rest = 0
       /\ match r with
          | Normal _ =>
              rest = [ESpanEnd; EPResolve "ok"]
              /\ promise (run noting (returns "ok")).1 = Fulfilled "ok"
          | Throw _ =>
              countEv isPResolve rest = 0
              /\ promise (run noting (returns "ok")).1 <> Fulfilled "ok"
          end.
Proof.
  assert (Normal "ok" ∈ resolverResults (run noting (returns "ok")).2) as Hin.
  { vm_compute. left. }
  split; [exact Hin|].
  exact (C6_postResolve_hooks_between_result_and_return
           typeErrorOf tt noOptions noting (Some 7) (returns "ok")
           tt tt ctx0 tt "ok"
           Hin).
Defined.

Lemma C7_witness :
  secondFails !! "postResolve" = Some [note "A"; failing "B"; note "C"]
  /\ exists calls r final,
       runHook secondFails "postResolve" (postRec "ok")
         store0
       = (r, setContext final store0,
          hookTrace "postResolve" (postRec "ok") 0 calls)
       /\ callsOf (postRec "ok") [note "A"; failing "B"; note "C"]
            (context store0) calls final
       /\ length calls <= length [note "A"; failing "B"; note "C"]
       /\ match r with
          | Normal _ =>
              length calls = length [note "A"; failing "B"; note "C"]
              /\ Forall completed calls
          | Throw e =>
              exists pre c,
                calls = pre ++ [(c, Throw e)] /\ Forall completed pre
          end.
Proof.
  split; [reflexivity|].
  apply C7_runHook_sequential_fail_fast. reflexivity.
Defined.

Lemma C8_witness :
  (emptyLists !! "postResolve" = None
   /\ runHook emptyLists "postResolve" (postRec "ok") store0
      = (Normal tt, store0, []))
  /\ (emptyLists !! "preResolve" = Some []
      /\ runHook emptyLists "preResolve" preRec store0
         = (Normal tt, store0, []))
  /\ (registered emptyLists "preResolve" = []
      /\ registered emptyLists "postResolve" = []
      /\ registered emptyLists "resolveError" = []
      /\ run emptyLists (throws "E") = run ∅ (throws "E")
      /\ Some 7 <> None
      /\ promise (run emptyLists (throws "E")).1 = Rejected "E"
      /\ context (run emptyLists (throws "E")).1 = traced []).
Proof.
  split; [|split].
  - split; [reflexivity|].
    apply (proj1 (C8_no_hooks_no_effect typeErrorOf tt noOptions emptyLists
                    (Some 7) (throws "E") tt tt ctx0 tt "postResolve"
                    (postRec "ok") store0)).
    reflexivity.
  - split; [reflexivity|].
    apply (proj1 (proj2 (C8_no_hooks_no_effect typeErrorOf tt noOptions
                           emptyLists (Some 7) (throws "E") tt tt ctx0 tt
                           "preResolve" preRec store0))).
    reflexivity.
  - do 3 (split; [reflexivity|]).
    assert (Some 7 <> None) as Hspan by discriminate.
    destruct (proj2 (proj2 (C8_no_hooks_no_effect typeErrorOf tt noOptions
                              emptyLists (Some 7) (throws "E") tt tt ctx0 tt
                              "preResolve" preRec store0))
                eq_refl eq_refl eq_refl) as [Heq Hout].
    split; [exact Heq|]. split; [exact Hspan|]. exact (Hout Hspan).
Defined.

Lemma C9_witness :
  (forall c0, firstEntry (run noting (returns "ok")).2 = Some c0 ->
     c0 = tracedContext tt (Some 7) ctx0)
  /\ Forall (carriesSpan (Some 7)) (run noting (returns "ok")).2
  /\ Forall hookKeepsTracing (registered noting "preResolve")
  /\ Forall hookKeepsTracing (registered noting "postResolve")
  /\ Forall hookKeepsTracing (registered noting "resolveError")
  /\ resolverKeepsTracing (returns "ok")
  /\ Forall (seesHandle (tracingHandle tt (Some 7)))
       (run noting (returns "ok")).2
  /\ tracing (context (run noting (returns "ok")).1)
     = Some (tracingHandle tt (Some 7)).
Proof.
  assert (Forall hookKeepsTracing (registered noting "preResolve")) as H1.
  { change (registered noting "preResolve")
      with [note "pre1"; note "pre2"].
    repeat constructor. }
  assert (Forall hookKeepsTracing (registered noting "postResolve")) as H2.
  { change (registered noting "postResolve")
      with [note "post1"; note "post2"].
    repeat constructor. }
  assert (Forall hookKeepsTracing (registered noting "resolveError")) as H3.
  { change (registered noting "resolveError")
      with [recordErr; note "err2"].
    repeat constructor. intros hc c. unfold recordErr. by destruct (err hc). }
  assert (resolverKeepsTracing (returns "ok")) as H4.
  { intros p a c i. reflexivity. }
  destruct (C9_handle_visible_while_callbacks_keep_it
              typeErrorOf tt noOptions noting (Some 7) (returns "ok")
              tt tt ctx0 tt) as (Hfirst & Hspan & Hkeep).
  split; [exact Hfirst|]. split; [exact Hspan|].
  do 4 (split; [assumption|]).
  exact (Hkeep H1 H2 H3 H4).
Defined.

(** ** The further properties at explicit inputs *)

Lemma previous_tracing_handle_discarded_witness :
  user ctx0 = user (traced [])
  /\ graphqlJaegerMiddleware typeErrorOf tt noOptions noting (Some 7)
       (returns "ok") tt tt ctx0 tt
     = graphqlJaegerMiddleware typeErrorOf tt noOptions noting (Some 7)
         (returns "ok") tt tt (traced []) tt.
Proof.
  split; [reflexivity|].
  apply previous_tracing_handle_discarded. reflexivity.
Defined.

Lemma span_ended_just_before_promise_settles_witness :
  promise (run noting (returns "ok")).1 = Fulfilled "ok"
  /\ exists pre,
       (run noting (returns "ok")).2 = pre ++ [ESpanEnd; EPResolve "ok"].
Proof.
  split; [reflexivity|].
  apply (proj1 (span_ended_just_before_promise_settles
                  typeErrorOf tt noOptions noting (Some 7) (returns "ok")
                  tt tt ctx0 tt)).
  reflexivity.
Defined.

Lemma promise_pending_iff_witness :
  (Some 7 = None
   \/ countEv (isFailureOf "preResolve") (run preFails (returns "ok")).2
      + countEv (isFailureOf "resolveError") (run preFails (returns "ok")).2
      <> 0)
  /\ promise (run preFails (returns "ok")).1 = Pending.
Proof.
  assert (Some 7 = None
          \/ countEv (isFailureOf "preResolve")
               (run preFails (returns "ok")).2
             + countEv (isFailureOf "resolveError")
                 (run preFails (returns "ok")).2 <> 0) as Hne.
  { right. vm_compute. discriminate. }
  split; [exact Hne|].
  exact (proj2 (promise_pending_iff_preResolve_or_resolveError_hook_threw
                  typeErrorOf tt noOptions preFails (Some 7) (returns "ok")
                  tt tt ctx0 tt) Hne).
Defined.

Lemma resolver_failure_outcome_witness :
  Throw "E" ∈ resolverResults (run noting (throws "E")).2
  /\ exists pre calls r c2 c3,
       (run noting (throws "E")).2
         = pre ++ EResolveEnd (Throw "E")
             :: hookTrace "resolveError" (errorRec "E") 0 calls
             ++ handlerTail "E" r
       /\ err (errorRec "E") = Some "E"
       /\ dispatched noting "resolveError" (errorRec "E") c2 calls r c3
       /\ promise (run noting (throws "E")).1 = handlerPromise "E" r.
Proof.
  assert (Throw "E" ∈ resolverResults (run noting (throws "E")).2) as Hin.
  { vm_compute. left. }
  split; [exact Hin|].
  exact (resolver_failure_outcome typeErrorOf tt noOptions noting (Some 7)
           (throws "E") tt tt ctx0 tt "E" Hin).
Defined.

Lemma postResolve_failure_outcome_witness :
  Normal "ok" ∈ resolverResults (run postFails (returns "ok")).2
  /\ promise (run postFails (returns "ok")).1 <> Fulfilled "ok"
  /\ exists pre calls c2 H c3 ecalls r c4,
       (run postFails (returns "ok")).2
         = pre ++ EResolveEnd (Normal "ok")
             :: hookTrace "postResolve" (postRec "ok") 0 calls
             ++ hookTrace "resolveError" (errorRec H) 0 ecalls
             ++ handlerTail H r
       /\ dispatched postFails "postResolve" (postRec "ok") c2 calls
            (Throw H) c3
       /\ err (errorRec H) = Some H
       /\ dispatched postFails "resolveError" (errorRec H) c3 ecalls r c4
       /\ promise (run postFails (returns "ok")).1 = handlerPromise H r.
Proof.
  assert (Normal "ok" ∈ resolverResults (run postFails (returns "ok")).2)
    as Hin.
  { vm_compute. left. }
  assert (promise (run postFails (returns "ok")).1 <> Fulfilled "ok") as Hne.
  { vm_compute. discriminate. }
  split; [exact Hin|]. split; [exact Hne|].
  exact (postResolve_failure_outcome typeErrorOf tt noOptions postFails (Some 7)
           (returns "ok") tt tt ctx0 tt "ok" Hin Hne).
Defined.

Lemma resolver_not_called_outcome_witness :
  resolverResults (runUnsampled noting (returns "ok")).2 = []
  /\ promise (runUnsampled noting (returns "ok")).1 = Pending
  /\ spanStarts (runUnsampled noting (returns "ok")).2 = 0
  /\ spanEnds (runUnsampled noting (returns "ok")).2 = 0
  /\ (@None nat = None
      \/ countEv (isFailureOf "preResolve")
           (runUnsampled noting (returns "ok")).2 = 1).
Proof.
  split; [reflexivity|].
  apply (resolver_not_called_outcome typeErrorOf tt noOptions noting None
           (returns "ok") tt tt ctx0 tt).
  reflexivity.
Defined.

Lemma postResolve_and_resolveError_follow_the_outcome_witness :
  (Throw "E" ∈ resolverResults (run noting (throws "E")).2
   /\ countEv (isHookEventOf "postResolve") (run noting (throws "E")).2 = 0)
  /\ (promise (run noting (returns "ok")).1 = Fulfilled "ok"
      /\ countEv (isHookEventOf "resolveError")
           (run noting (returns "ok")).2 = 0).
Proof.
  split.
  - assert (Throw "E" ∈ resolverResults (run noting (throws "E")).2) as Hin.
    { vm_compute. left. }
    split; [exact Hin|].
    exact (proj1 (postResolve_and_resolveError_follow_the_outcome
                    typeErrorOf tt noOptions noting (Some 7) (throws "E")
                    tt tt ctx0 tt) "E" Hin).
  - split; [reflexivity|].
    apply (proj1 (proj2 (postResolve_and_resolveError_follow_the_outcome
                           typeErrorOf tt noOptions noting (Some 7)
                           (returns "ok")
                           tt tt ctx0 tt)) "ok").
    reflexivity.
Defined.

Lemma callbacks_under_other_names_ignored_witness :
  "preresolve" <> "preResolve"
  /\ "preresolve" <> "postResolve"
  /\ "preresolve" <> "resolveError"
  /\ run (<["preresolve" := [failing "typo"]]> noting) (returns "ok")
     = run noting (returns "ok").
Proof.
  assert ("preresolve" <> "preResolve") as H1 by discriminate.
  assert ("preresolve" <> "postResolve") as H2 by discriminate.
  assert ("preresolve" <> "resolveError") as H3 by discriminate.
  do 3 (split; [assumption|]).
  exact (callbacks_under_other_names_ignored typeErrorOf tt noOptions noting
           "preresolve" [failing "typo"] (Some 7) (returns "ok") tt tt ctx0 tt
           H1 H2 H3).
Defined.

Lemma dispatch_of_appended_callbacks_witness :
  secondFails !! "postResolve" = Some ([note "A"] ++ [failing "B"; note "C"])
  /\ runHook secondFails "postResolve" (postRec "ok") store0
     = bind (runHook (<["postResolve" := [note "A"]]> secondFails)
               "postResolve" (postRec "ok"))
         (fun _ => runHookFns "postResolve" (postRec "ok")
                     (length [note "A"]) [failing "B"; note "C"])
         store0.
Proof.
  split; [reflexivity|].
  apply dispatch_of_appended_callbacks. reflexivity.
Defined.

Lemma context_changes_only_through_callbacks_witness :
  Forall (hookKeeps (fun c : SCtx => user c = []))
    (registered dropsTracing "preResolve")
  /\ Forall (hookKeeps (fun c : SCtx => user c = []))
       (registered dropsTracing "postResolve")
  /\ Forall (hookKeeps (fun c : SCtx => user c = []))
       (registered dropsTracing "resolveError")
  /\ resolverKeeps (fun c : SCtx => user c = []) (returns "ok")
  /\ user (tracedContext tt (Some 7) ctx0) = []
  /\ Forall (holdsOnEntry (fun c : SCtx => user c = []))
       (run dropsTracing (returns "ok")).2
  /\ user (context (run dropsTracing (returns "ok")).1) = [].
Proof.
  assert (Forall (hookKeeps (fun c : SCtx => user c = []))
            (registered dropsTracing "preResolve")) as H1.
  { change (registered dropsTracing "preResolve") with [dropTracing].
    repeat constructor. intros hc c Hc. exact Hc. }
  assert (Forall (hookKeeps (fun c : SCtx => user c = []))
            (registered dropsTracing "postResolve")) as H2.
  { change (registered dropsTracing "postResolve") with (@nil SHook).
    constructor. }
  assert (Forall (hookKeeps (fun c : SCtx => user c = []))
            (registered dropsTracing "resolveError")) as H3.
  { change (registered dropsTracing "resolveError") with (@nil SHook).
    constructor. }
  assert (resolverKeeps (fun c : SCtx => user c = []) (returns "ok")) as H4.
  { intros p a c i Hc. exact Hc. }
  do 4 (split; [assumption|]). split; [reflexivity|].
  exact (context_changes_only_through_callbacks
           (fun c : SCtx => user c = [])
           typeErrorOf tt noOptions dropsTracing (Some 7) (returns "ok")
           tt tt ctx0 tt
           H1 H2 H3 H4 eq_refl).
Defined.

Lemma unsampled_invocation_outcome_witness :
  countEv (isFailureOf "preResolve") (runUnsampled noting (returns "ok")).2
  = 0
  /\ exists pre calls r c1 c2,
       (runUnsampled noting (returns "ok")).2
       = pre ++ hookTrace "resolveError"
                  (errorRecord None tt tt tt (typeErrorOf "start")) 0 calls
       /\ err (errorRecord None tt tt tt (typeErrorOf "start") : SRecord)
          = Some (typeErrorOf "start")
       /\ dispatched noting "resolveError"
            (errorRecord None tt tt tt (typeErrorOf "start")) c1 calls r c2
       /\ countEv (isHookEventOf "resolveError") pre = 0.
Proof.
  split; [reflexivity|].
  apply (proj2 (proj2 (proj2 (proj2
           (unsampled_invocation_outcome typeErrorOf tt noOptions noting
              (returns "ok") tt tt ctx0 tt))))).
  reflexivity.
Defined.
